(** * EquityCurve: normalisation, daily aggregation and equity curve

    A shallow embedding of [src/components/EquityCurve/index.js]: the helpers
    [toSec], [getCloseSec] and [getPL], the per-trade loop and the prefix sum
    of [fetchAll], and the commit of its result to the component state;
    then the URL of a request, the day keys of the buckets, the key of the
    symbols among the dependencies of the effect, and the metrics that the
    render derives from the points.

    JavaScript numbers are IEEE-754 binary64 values, embedded as Rocq's
    primitive [float]; the trade records are values produced by
    [Response.json()], embedded as the inductive [value]; a thrown exception
    is the [Throw] case of [result]. *)

From Stdlib Require Import ZArith Floats Ascii String List Lia.
From stdpp Require Import gmap strings list fin_maps sorting pretty.

Set Warnings "-inexact-float,-register-all".

Local Open Scope Z_scope.

(** ** Exceptions and completion records *)

Module Js.

(** An exception object: its constructor name and its [message]. *)
Record exn := Exn { exn_name : string; message : string }.

Inductive result (A : Type) : Type :=
| Ok (a : A)
| Throw (e : exn).
Arguments Ok {A} a.
Arguments Throw {A} e.

#[export] Instance result_ret : MRet result := fun A a => Ok a.
#[export] Instance result_bind : MBind result := fun A B f r =>
  match r with
  | Ok a => f a
  | Throw e => Throw e
  end.

(** [for (const x of xs) acc = step(acc, x)] where [step] may throw. *)
Fixpoint foldM {A B : Type} (step : A -> B -> result A) (acc : A) (xs : list B)
  : result A :=
  match xs with
  | [] => Ok acc
  | x :: xs' => acc' ← step acc x; foldM step acc' xs'
  end.

Definition TypeError (msg : string) : exn := Exn "TypeError" msg.
Definition RangeError (msg : string) : exn := Exn "RangeError" msg.

(** ** Numbers *)

(** The Number value of an integer: the nearest binary64 value, ties to even
    (exact whenever the integer is representable). *)
Definition of_Z (z : Z) : float := SF2Prim (binary_normalize prec emax z 0 false).

(** [Number.isFinite] on a Number. *)
Definition isFinite (x : float) : bool := is_finite x.

(** The mathematical floor of a finite non-zero binary64 value
    [(-1)^s * m * 2^e]. *)
Definition floorZ (s : bool) (m : positive) (e : Z) : Z :=
  let n := if s then Z.neg m else Z.pos m in
  if 0 <=? e then n * 2 ^ e else n / 2 ^ (- e).

(** Truncation toward zero of the same value. *)
Definition truncZ (s : bool) (m : positive) (e : Z) : Z :=
  let n := if s then Z.neg m else Z.pos m in
  if 0 <=? e then n * 2 ^ e else Z.quot n (2 ^ (- e)).

(** [Math.floor]: NaN, the infinities and the zeros are returned unchanged. *)
Definition Math_floor (x : float) : float :=
  match Prim2SF x with
  | S754_finite s m e => of_Z (floorZ s m e)
  | _ => x
  end.

(** A Number that is [-0] or the Number value of an integer.  (The nearest
    binary64 value of an integer is an integer, or an infinity.) *)
Definition integral (x : float) : Prop := x = neg_zero \/ exists z : Z, x = of_Z z.

(** ** Strings *)

Definition is_digit (c : ascii) : bool :=
  let n := N_of_ascii c in ((48 <=? n) && (n <=? 57))%N.

Fixpoint all_digits (s : string) : bool :=
  match s with
  | EmptyString => true
  | String c s' => is_digit c && all_digits s'
  end.

(** [/^\d{n}$/.test(s)] *)
Definition digits_exactly (n : nat) (s : string) : bool :=
  (String.length s =? n)%nat && all_digits s.

(** The decimal digits of [z], least significant last, on [width] places. *)
Fixpoint pad (width : nat) (z : Z) : string :=
  match width with
  | O => EmptyString
  | S w => pad w (z / 10) +:+ String (ascii_of_N (48 + Z.to_N (z mod 10))) EmptyString
  end.

(** A JavaScript string is embedded as the byte string of its UTF-8
    encoding; ASCII strings, the only ones the component builds itself, are
    their own encoding.  [codes] gives the bytes as numbers. *)
Definition codes (s : string) : list N := map N_of_ascii (list_ascii_of_string s).

(** *** StringToNumber (ECMA-262, StringNumericLiteral) *)

(** White space and line terminators that fit one byte:
    TAB, LF, VT, FF, CR, SP. *)
Definition is_ws1 (c : N) : bool := ((9 <=? c) && (c <=? 13) || (c =? 32))%N.

(** Third byte of the white space encoded as E2 80 xx:
    U+2000..U+200A, U+2028, U+2029, U+202F. *)
Definition is_ws_e280 (c : N) : bool :=
  ((128 <=? c) && (c <=? 138) || (c =? 168) || (c =? 169) || (c =? 175))%N.

(** Drops leading StrWhiteSpaceChar: the one-byte ones and U+00A0, U+1680,
    U+2000..U+200A, U+2028, U+2029, U+202F, U+205F, U+3000, U+FEFF. *)
Fixpoint trim_start (s : list N) : list N :=
  match s with
  | c1 :: r1 =>
      if is_ws1 c1 then trim_start r1 else
      match r1 with
      | c2 :: r2 =>
          if ((c1 =? 194) && (c2 =? 160))%N then trim_start r2 else
          match r2 with
          | c3 :: r3 =>
              if ((c1 =? 225) && (c2 =? 154) && (c3 =? 128)
                  || (c1 =? 226) && (c2 =? 128) && is_ws_e280 c3
                  || (c1 =? 226) && (c2 =? 129) && (c3 =? 159)
                  || (c1 =? 227) && (c2 =? 128) && (c3 =? 128)
                  || (c1 =? 239) && (c2 =? 187) && (c3 =? 191))%N
              then trim_start r3 else s
          | [] => s
          end
      | [] => s
      end
  | [] => []
  end.

(** The same on the reversed string, whose multi-byte characters read
    backwards. *)
Fixpoint trim_start_rev (s : list N) : list N :=
  match s with
  | c1 :: r1 =>
      if is_ws1 c1 then trim_start_rev r1 else
      match r1 with
      | c2 :: r2 =>
          if ((c2 =? 194) && (c1 =? 160))%N then trim_start_rev r2 else
          match r2 with
          | c3 :: r3 =>
              if ((c3 =? 225) && (c2 =? 154) && (c1 =? 128)
                  || (c3 =? 226) && (c2 =? 128) && is_ws_e280 c1
                  || (c3 =? 226) && (c2 =? 129) && (c1 =? 159)
                  || (c3 =? 227) && (c2 =? 128) && (c1 =? 128)
                  || (c3 =? 239) && (c2 =? 187) && (c1 =? 191))%N
              then trim_start_rev r3 else s
          | [] => s
          end
      | [] => s
      end
  | [] => []
  end.

Definition trim (s : list N) : list N := rev (trim_start_rev (rev (trim_start s))).

Definition is_dec (c : N) : bool := ((48 <=? c) && (c <=? 57))%N.
Definition dec_digit (c : N) : Prop := (48 <= c <= 57)%N.

(** The value of a digit in base 16 (also used for bases 2 and 8). *)
Definition hex_val (c : N) : option Z :=
  if is_dec c then Some (Z.of_N c - 48)
  else if ((97 <=? c) && (c <=? 102))%N then Some (Z.of_N c - 87)
  else if ((65 <=? c) && (c <=? 70))%N then Some (Z.of_N c - 55)
  else None.

(** The longest prefix of decimal digits, and the rest. *)
Fixpoint span_digits (s : list N) : list N * list N :=
  match s with
  | c :: r => if is_dec c then let '(d, r') := span_digits r in (c :: d, r') else ([], s)
  | [] => ([], [])
  end.

Definition dec_value (ds : list N) : Z :=
  fold_left (fun acc c => 10 * acc + (Z.of_N c - 48)) ds 0.

(** The value of a non-empty string of digits of base [b], if they all are. *)
Fixpoint radix_value (b : Z) (acc : Z) (s : list N) : option Z :=
  match s with
  | [] => Some acc
  | c :: r =>
      match hex_val c with
      | Some d => if d <? b then radix_value b (b * acc + d) r else None
      | None => None
      end
  end.

(** The Number value of [m * 10^e10] for [m >= 0]: the nearest binary64
    value, ties to even. *)
Definition dec_to_float (m e10 : Z) : float :=
  match m with
  | Z.pos p =>
      if 0 <=? e10 then of_Z (m * 10 ^ e10)
      else match 10 ^ (- e10) with
           | Z.pos q => SF2Prim (SFdiv prec emax (S754_finite false p 0) (S754_finite false q 0))
           | _ => nan
           end
  | _ => PrimFloat.zero
  end.

(** ExponentPart_opt at the end of the literal: the exponent, if the rest
    of the string is one. *)
Definition parse_exponent (s : list N) : option Z :=
  match s with
  | [] => Some 0
  | c :: r =>
      if ((c =? 101) || (c =? 69))%N then
        let '(neg, r') :=
          match r with
          | 43%N :: r' => (false, r')
          | 45%N :: r' => (true, r')
          | _ => (false, r)
          end in
        match span_digits r' with
        | ((_ :: _) as ds, []) => Some (if neg then - dec_value ds else dec_value ds)
        | _ => None
        end
      else None
  end.

(** StrUnsignedDecimalLiteral, [Infinity] apart. *)
Definition parse_unsigned (s : list N) : option float :=
  let '(ip, r1) := span_digits s in
  let '(fp, r2, ok) :=
    match r1 with
    | 46%N :: r =>
        let '(fp, r2) := span_digits r in
        (fp, r2, match ip, fp with [], [] => false | _, _ => true end)
    | _ => ([], r1, match ip with [] => false | _ => true end)
    end in
  if ok then
    match parse_exponent r2 with
    | Some e => Some (dec_to_float (dec_value (ip ++ fp)) (e - Z.of_nat (length fp)))
    | None => None
    end
  else None.

Definition Infinity_codes : list N := Eval cbv in codes "Infinity".

Definition parse_unsigned_or_inf (s : list N) : option float :=
  if decide (s = Infinity_codes) then Some infinity else parse_unsigned s.

(** StrNumericLiteral: a signed decimal literal, or an unsigned binary,
    octal or hexadecimal integer literal. *)
Definition parse_numeric (s : list N) : float :=
  match s with
  | 48%N :: p :: ((_ :: _) as ds) =>
      let radix :=
        if ((p =? 120) || (p =? 88))%N then Some 16
        else if ((p =? 111) || (p =? 79))%N then Some 8
        else if ((p =? 98) || (p =? 66))%N then Some 2
        else None in
      match radix with
      | Some b => match radix_value b 0 ds with Some z => of_Z z | None => nan end
      | None => match parse_unsigned s with Some x => x | None => nan end
      end
  | 43%N :: u => match parse_unsigned_or_inf u with Some x => x | None => nan end
  | 45%N :: u => match parse_unsigned_or_inf u with Some x => (- x)%float | None => nan end
  | _ => match parse_unsigned_or_inf s with Some x => x | None => nan end
  end.

(** [Number(s)] for a string [s]: the empty and the all-blank string give
    [+0], a string that is no numeric literal gives [NaN]. *)
Definition StringToNumber (s : string) : float :=
  match trim (codes s) with
  | [] => PrimFloat.zero
  | t => parse_numeric t
  end.

(** ** Values *)

(** The values [Response.json()] can produce, and [undefined], which reading
    a missing property gives.  An object is the list of its own properties;
    [own] reads the first binding of a name. *)
Inductive value : Type :=
| Undefined
| Null
| Bool (b : bool)
| Num (n : float)
| Str (s : string)
| Arr (elems : list value)
| Obj (props : list (string * value)).

Fixpoint own (name : string) (props : list (string * value)) : option value :=
  match props with
  | [] => None
  | (k, v) :: rest => if String.eqb k name then Some v else own name rest
  end.

(** [v == null] *)
Definition nullish (v : value) : bool :=
  match v with
  | Undefined | Null => true
  | _ => false
  end.

(** What the engine supplies and ECMA-262 leaves to it, or this development
    does not unfold: Number::toString (the shortest round-trip decimal),
    [Date.parse], implementation-defined outside the ISO format, and the
    wording of the messages of the errors the built-ins throw. *)
Record engine := Engine {
  Number_toString : float -> string;
  Date_parse : string -> float;
  (* TypeError of reading the property of the given name on null ([true])
     or on undefined ([false]) *)
  msg_read_nullish : bool -> string -> string;
  (* TypeError of converting an object that has no primitive value *)
  msg_no_primitive : string;
  (* RangeError of formatting an invalid date *)
  msg_invalid_time : string;
}.

Section Conversions.
Context (E : engine).

(** [o.name] (or [o[name]]) for a name that no built-in prototype defines,
    as are all the names the component reads: an own property of an object,
    [undefined] on any other value, a TypeError on [null] and [undefined]. *)
Definition get (o : value) (name : string) : result value :=
  match o with
  | Null => Throw (TypeError (msg_read_nullish E true name))
  | Undefined => Throw (TypeError (msg_read_nullish E false name))
  | Obj props => Ok (default Undefined (own name props))
  | _ => Ok Undefined
  end.

(** ToString.  An array joins the strings of its elements with commas,
    [null] and [undefined] elements counting as empty.  A plain object has
    [Object.prototype.toString], unless an own property named [toString]
    shadows it: a value from JSON is never callable, and
    [Object.prototype.valueOf] returns the object itself, so
    OrdinaryToPrimitive runs out of methods and throws. *)
Fixpoint ToString (v : value) : result string :=
  match v with
  | Undefined => Ok "undefined"
  | Null => Ok "null"
  | Bool b => Ok (if b then "true" else "false")
  | Num n => Ok (Number_toString E n)
  | Str s => Ok s
  | Arr elems =>
      (fix join (first : bool) (l : list value) : result string :=
         match l with
         | [] => Ok ""
         | x :: r =>
             s ← (if nullish x then Ok "" else ToString x);
             rest ← join false r;
             Ok ((if first then "" else ",") +:+ s +:+ rest)
         end) true elems
  | Obj props =>
      match own "toString" props with
      | Some _ => Throw (TypeError (msg_no_primitive E))
      | None => Ok "[object Object]"
      end
  end.

(** ToNumber.  Arrays and plain objects have no primitive [valueOf], so they
    convert through their string. *)
Definition ToNumber (v : value) : result float :=
  match v with
  | Undefined => Ok nan
  | Null => Ok PrimFloat.zero
  | Bool b => Ok (if b then PrimFloat.one else PrimFloat.zero)
  | Num n => Ok n
  | Str s => Ok (StringToNumber s)
  | Arr _ | Obj _ => s ← ToString v; Ok (StringToNumber s)
  end.

End Conversions.

(** ** Dates *)

(** A Date object is its time value: an integral number of milliseconds
    within 8.64e15 of the epoch, or [None] for NaN (an invalid date). *)
Definition date := option Z.

(** TimeClip *)
Definition TimeClip (x : float) : date :=
  match Prim2SF x with
  | S754_zero _ => Some 0
  | S754_finite s m e =>
      let z := truncZ s m e in
      if Z.abs z <=? 8640000000000000 then Some z else None
  | _ => None
  end.

(** [new Date(x)] for a Number [x], and [new Date(s)] for a string [s]. *)
Definition Date_of_number (x : float) : date := TimeClip x.
Definition Date_of_string (E : engine) (s : string) : date := TimeClip (Date_parse E s).

(** [d.getTime()] *)
Definition getTime (d : date) : float :=
  match d with
  | Some tv => of_Z tv
  | None => nan
  end.

(** Year, month (1..12) and day of the month of a day number counted from
    1970-01-01, in the proleptic Gregorian calendar. *)
Definition civil_from_days (days : Z) : Z * Z * Z :=
  let z := days + 719468 in
  let era := z / 146097 in
  let doe := z - era * 146097 in
  let yoe := (doe - doe / 1460 + doe / 36524 - doe / 146096) / 365 in
  let doy := doe - (365 * yoe + yoe / 4 - yoe / 100) in
  let mp := (5 * doy + 2) / 153 in
  let d := doy - (153 * mp + 2) / 5 + 1 in
  let m := if mp <? 10 then mp + 3 else mp - 9 in
  let y := yoe + era * 400 + (if m <=? 2 then 1 else 0) in
  (y, m, d).

(** The year of the ISO format: four digits from 0 to 9999, else a sign and
    six digits. *)
Definition year_string (y : Z) : string :=
  if (0 <=? y) && (y <=? 9999) then pad 4 y
  else (if y <? 0 then "-" else "+") +:+ pad 6 (Z.abs y).

(** [d.toISOString()]: a RangeError on an invalid date. *)
Definition toISOString (E : engine) (d : date) : result string :=
  match d with
  | None => Throw (RangeError (msg_invalid_time E))
  | Some tv =>
      let ms := tv mod 86400000 in
      let '(y, m, dd) := civil_from_days (tv / 86400000) in
      Ok (year_string y +:+ "-" +:+ pad 2 m +:+ "-" +:+ pad 2 dd +:+ "T"
          +:+ pad 2 (ms / 3600000) +:+ ":" +:+ pad 2 (ms / 60000 mod 60) +:+ ":"
          +:+ pad 2 (ms / 1000 mod 60) +:+ "." +:+ pad 3 (ms mod 1000) +:+ "Z")
  end.

(** [s.slice(0, n)] *)
Definition slice0 (n : nat) (s : string) : string := substring 0 n s.

End Js.

(** * The component *)

Module EquityCurve.
Import Js.

Local Open Scope float_scope.

(** [a ?? b]: [b] is evaluated only when [a] completes with [undefined]. *)
Definition coalesce {A : Type} (a b : result (option A)) : result (option A) :=
  r ← a;
  match r with
  | Some _ => Ok r
  | None => b
  end.
Infix "??" := coalesce (at level 45, left associativity).

(** [Number.isFinite(x)] where [x] is a Number or [undefined]. *)
Definition Number_isFinite (x : option float) : bool :=
  match x with
  | Some n => isFinite n
  | None => false
  end.

(** [x || 0] where [x] is a Number or [undefined]: NaN and the zeros are
    falsy. *)
Definition or_zero (x : option float) : float :=
  match x with
  | Some n => if is_nan n || is_zero n then 0 else n
  | None => 0
  end.

(** [{ date, equity }] *)
Record point := Point { date : string; equity : float }.

(** The pieces of React state the effect writes. *)
Record state := State { points : list point; loading : bool; err : string }.

(** What [res.json()] settles with, and a [Response]. *)
Record response := Response {
  ok : bool;
  status : N;
  statusText : string;
  json : result value;
}.

(** What [fetch(url)] settles with. *)
Inductive fetched : Type :=
| Rejected (e : exn)
| Resolved (res : response).

(** The order of strings that [Array.prototype.sort] uses without a
    comparator (code units; bytes for the ASCII keys at hand). *)
Definition str_le (a b : string) : Prop := String.leb a b = true.
#[export] Instance str_le_dec : RelDecision str_le := fun a b => decide (String.leb a b = true).
Definition str_lt (a b : string) : Prop := String.ltb a b = true.

(** [Object.keys(o)] of an object used as a dictionary: every key once. *)
Definition Object_keys (o : gmap string float) : list string := (map_to_list o).*1.

(** [o[k]] as an operand of [+]: [undefined] converts to NaN. *)
Definition read_num (o : gmap string float) (k : string) : float :=
  match o !! k with
  | Some x => x
  | None => nan
  end.

Section Component.
Context (E : engine).

(** Helper: convert various timestamp formats -> seconds.  The result is a
    Number or [undefined]. *)
Definition toSec (v : value) : result (option float) :=
  if nullish v then Ok None else
  match v with
  | Num n =>
      (* treat 13-digit as ms *)
      if 2000000000000 <? n then Ok (Some (Math_floor (n / 1000)))
      else Ok (Some n) (* already seconds *)
  | _ =>
      s ← ToString E v;
      if digits_exactly 13 s then Ok (Some (Math_floor (StringToNumber s / 1000)))
      else if digits_exactly 10 s then Ok (Some (StringToNumber s))
      else
        let d := Date_of_string E s in
        let t := getTime d in
        Ok (if isFinite t then Some (Math_floor (t / 1000)) else None)
  end.

(** Helper: pick "close time" from trade. *)
Definition getCloseSec (t : value) : result (option float) :=
  (x ← get E t "close_timestamp"; toSec x) ??
  (x ← get E t "exit"; toSec x) ??
  (x ← get E t "close_time"; toSec x) ??
  (x ← get E t "timestamp"; toSec x) ??
  (x ← get E t "entry_timestamp"; toSec x).

(** One numbered block of [getPL], for the field [f]:
    [if (typeof t.f === "number") return t.f;
     if (t.f != null) { const v = Number(t.f); if (Number.isFinite(v)) return v; }]
    [Some v] when the block returns [v], [None] when control reaches the
    next block. *)
Definition pl_block (t : value) (f : string) : result (option float) :=
  x ← get E t f;
  match x with
  | Num n => Ok (Some n)
  | _ =>
      if negb (nullish x) then
        v ← ToNumber E x;
        Ok (if isFinite v then Some v else None)
      else Ok None
  end.

(** Helper: pick P&L for trade (prefers real_profit_loss). *)
Definition getPL (t : value) : result (option float) :=
  r1 ← pl_block t "real_profit_loss";
  match r1 with
  | Some v => Ok (Some v)
  | None =>
  r2 ← pl_block t "real_net_profit_loss";
  match r2 with
  | Some v => Ok (Some v)
  | None =>
  r3 ← pl_block t "real_net_pnl";
  match r3 with
  | Some v => Ok (Some v)
  | None =>
  r4 ← pl_block t "real_pnl";
  match r4 with
  | Some v => Ok (Some v)
  | None => Ok None
  end end end end.

(** The body of [for (const t of trades)]. *)
Definition addTrade (dailyPL : gmap string float) (t : value) : result (gmap string float) :=
  ctSec ← getCloseSec t;
  match ctSec with
  | None => Ok dailyPL
  | Some c =>
      if negb (isFinite c) then Ok dailyPL else
      pl ← getPL t;
      match pl with
      | None => Ok dailyPL
      | Some p =>
          if negb (isFinite p) then Ok dailyPL else
          let d := Date_of_number (c * 1000) in
          iso ← toISOString E d;
          let day := slice0 10 iso in
          Ok (<[day := or_zero (dailyPL !! day) + p]> dailyPL)
      end
  end.

(** The Daily Aggregator: the loop over the trades of one response. *)
Definition aggregate (dailyPL : gmap string float) (trades : list value)
  : result (gmap string float) :=
  foldM addTrade dailyPL trades.

(** The callback of [symbols.map], from the point where [fetch] settles. *)
Definition onSymbol (dailyPL : gmap string float) (f : fetched) : result (gmap string float) :=
  match f with
  | Rejected e => Throw e
  | Resolved res =>
      if negb (ok res) then
        Throw (Exn "Error" (pretty (status res) +:+ " " +:+ statusText res))
      else
        body ← json res;
        tr ← get E body "trades";
        let trades := match tr with Arr l => l | _ => [] end in
        aggregate dailyPL trades
  end.

(** The Equity Curve Builder: sorted days, running balance. *)
Definition build (dailyPL : gmap string float) (startingBalance : float) : list point :=
  let days := merge_sort str_le (Object_keys dailyPL) in
  snd (fold_left
         (fun '(equity, pts) day =>
            let equity' := equity + read_num dailyPL day in
            (equity', pts ++ [Point day equity']))
         days (startingBalance, [])).

(** One run of [fetchAll].  [settled] lists what the fetches of the symbols
    settled with, in the order in which their callbacks resumed: the part of
    a callback after its last [await] runs without interruption, and
    [Promise.all] rejects with the first rejection.  [cancelled] is the flag
    at the time the [try] statement completes. *)
Definition fetchAll (startingBalance : float) (settled : list fetched)
           (cancelled : bool) (st : state) : state :=
  (* setLoading(true); setErr("") *)
  let started := State (points st) true "" in
  match foldM onSymbol ∅ settled with
  | Ok dailyPL =>
      let pts := build dailyPL startingBalance in
      (* if (!cancelled) setPoints(pts); finally: if (!cancelled) setLoading(false) *)
      if cancelled then started else State pts false (err started)
  | Throw e =>
      (* if (!cancelled) setErr(e.message || "Failed to load"); finally as above *)
      if cancelled then started
      else State (points started) false
             (if String.eqb (message e) "" then "Failed to load" else message e)
  end.

End Component.

(** ** The specification's words, as definitions *)

Section Specification.
Context (E : engine).

(** Section 4.2: the normalised value of the field [f] of a trade. *)
Definition probe (t : value) (f : string) : result (option float) :=
  x ← get E t f; toSec E x.

(** The first non-absent result of [p] over [fields], in order. *)
Fixpoint first_present (p : string -> result (option float)) (fields : list string)
  : result (option float) :=
  match fields with
  | [] => Ok None
  | f :: rest =>
      r ← p f;
      match r with
      | Some n => Ok (Some n)
      | None => first_present p rest
      end
  end.

Definition close_fields : list string :=
  ["close_timestamp"; "exit"; "close_time"; "timestamp"; "entry_timestamp"].

(** Section 4.3: what one field contributes to PnL resolution.  A Number is
    used directly; an absent field is skipped; any other value is coerced
    and accepted only if the coercion is finite. *)
Definition resolve_pl (x : value) : result (option float) :=
  match x with
  | Num n => Ok (Some n)
  | Undefined | Null => Ok None
  | _ => v ← ToNumber E x; Ok (if isFinite v then Some v else None)
  end.

Definition pl_fields : list string :=
  ["real_profit_loss"; "real_net_profit_loss"; "real_net_pnl"; "real_pnl"].

(** Section 4.5: the running balance over a list of days. *)
Fixpoint running (dailyPL : gmap string float) (equity : float) (days : list string)
  : list point :=
  match days with
  | [] => []
  | day :: rest =>
      let equity' := equity + read_num dailyPL day in
      Point day equity' :: running dailyPL equity' rest
  end.

(** What a trade adds to the daily sums: nothing ([None]), or a PnL on a
    day; [Throw] when handling the trade throws. *)
Definition contribution (t : value) : result (option (string * float)) :=
  ctSec ← getCloseSec E t;
  if negb (Number_isFinite ctSec) then Ok None else
  pl ← getPL E t;
  if negb (Number_isFinite pl) then Ok None else
  match ctSec, pl with
  | Some c, Some p =>
      iso ← toISOString E (Date_of_number (c * 1000));
      Ok (Some (slice0 10 iso, p))
  | _, _ => Ok None
  end.

(** A trade that the two guards of the loop skip. *)
Definition skipped (t : value) : Prop :=
  (exists c, getCloseSec E t = Ok c /\ Number_isFinite c = false)
  \/ (exists c p, getCloseSec E t = Ok c /\ getPL E t = Ok p /\ Number_isFinite p = false).

(** What the trades of a list add, in their order; [Throw] when handling
    one of them throws. *)
Fixpoint contributions (trades : list value) : result (list (string * float)) :=
  match trades with
  | [] => Ok []
  | t :: rest =>
      c ← contribution t;
      cs ← contributions rest;
      Ok (match c with Some c => c :: cs | None => cs end)
  end.

End Specification.

(** One more PnL on a bucket: [(dailyPL[day] || 0) + pl]. *)
Definition add_pl (bucket : option float) (p : float) : option float :=
  Some (or_zero bucket + p).

Definition add_contribution (m : gmap string float) (c : string * float) : gmap string float :=
  <[c.1 := or_zero (m !! c.1) + c.2]> m.

(** The PnLs of the day [d] among contributions, in their order. *)
Definition pls_of_day (d : string) (cs : list (string * float)) : list float :=
  (filter (fun c => c.1 = d) cs).*2.

(** The PnLs that the trades of a list add to the day [d], in the order of
    the list. *)
Definition day_pls (E : engine) (d : string) (trades : list value) : list float :=
  match contributions E trades with
  | Ok cs => pls_of_day d cs
  | Throw _ => []
  end.

(** A fetch that failed: the transport rejected, or the status is not a
    success. *)
Definition fetch_failed (f : fetched) : Prop :=
  match f with
  | Rejected _ => True
  | Resolved res => ok res = false
  end.

End EquityCurve.

(** * An engine for closed examples

    It prints the integral Numbers below 2^53 and parses the one date
    format that [toISOString] writes; the examples below reach it nowhere
    else (the other Numbers, which need the shortest round-trip digits, are
    printed here as [NaN], and every other string parses as an invalid
    date). *)

Module Sample.
Import Js.

Definition Number_toString (x : float) : string :=
  match Prim2SF x with
  | S754_zero _ => "0"
  | S754_infinity s => if s then "-Infinity" else "Infinity"
  | S754_nan => "NaN"
  | S754_finite s m e =>
      let z := truncZ s m e in
      if PrimFloat.Leibniz.eqb (of_Z z) x && (Z.abs z <? 2 ^ 53)
      then pretty z else "NaN"
  end.

Definition days_from_civil (y m d : Z) : Z :=
  let y' := if m <=? 2 then y - 1 else y in
  let era := y' / 400 in
  let yoe := y' - era * 400 in
  let doy := (153 * (if 2 <? m then m - 3 else m + 9) + 2) / 5 + d - 1 in
  let doe := yoe * 365 + yoe / 4 - yoe / 100 + doy in
  era * 146097 + doe - 719468.

Definition days_in_month (y m : Z) : Z :=
  if m =? 2 then
    if ((y mod 4 =? 0) && negb (y mod 100 =? 0)) || (y mod 400 =? 0) then 29 else 28
  else if (m =? 4) || (m =? 6) || (m =? 9) || (m =? 11) then 30 else 31.

(** The digits at [start .. start + len - 1], as a number. *)
Definition digits_at (cs : list N) (start len : nat) : option Z :=
  let ds := take len (drop start cs) in
  if (length ds =? len)%nat && forallb is_dec ds then Some (dec_value ds) else None.

Definition char_at (cs : list N) (i : nat) (c : N) : bool :=
  match cs !! i with
  | Some x => (x =? c)%N
  | None => false
  end.

(** [YYYY-MM-DDTHH:mm:ss.sssZ] *)
Definition Date_parse (s : string) : float :=
  let cs := codes s in
  if (length cs =? 24)%nat && char_at cs 4 45 && char_at cs 7 45 && char_at cs 10 84
     && char_at cs 13 58 && char_at cs 16 58 && char_at cs 19 46 && char_at cs 23 90
  then
    match digits_at cs 0 4, digits_at cs 5 2, digits_at cs 8 2,
          digits_at cs 11 2, digits_at cs 14 2, digits_at cs 17 2, digits_at cs 20 3 with
    | Some y, Some m, Some d, Some h, Some mi, Some sec, Some ms =>
        if (1 <=? m) && (m <=? 12) && (1 <=? d) && (d <=? days_in_month y m)
           && (h <=? 23) && (mi <=? 59) && (sec <=? 59)
        then of_Z (days_from_civil y m d * 86400000 + h * 3600000 + mi * 60000
                   + sec * 1000 + ms)
        else nan
    | _, _, _, _, _, _, _ => nan
    end
  else nan.

(** The wording of V8. *)
Definition engine : Js.engine :=
  Engine Number_toString Date_parse
    (fun null name =>
       "Cannot read properties of " +:+ (if null then "null" else "undefined")
       +:+ " (reading '" +:+ name +:+ "')")
    "Cannot convert object to primitive value"
    "Invalid time value".

(** Inputs of the closed examples. *)
Local Open Scope float_scope.

Definition trade (ts pl : float) : value :=
  Obj [("close_timestamp", Num ts); ("real_profit_loss", Num pl)].

Definition ok_response (body : result value) : EquityCurve.fetched :=
  EquityCurve.Resolved (EquityCurve.Response true 200 "OK" body).

Definition trades_response (trades : list value) : EquityCurve.fetched :=
  ok_response (Ok (Obj [("trades", Arr trades)])).

Definition not_found : EquityCurve.fetched :=
  EquityCurve.Resolved (EquityCurve.Response false 404 "Not Found" (Ok (Obj []))).

(** A state that shows the curve of an earlier run. *)
Definition shown : EquityCurve.state :=
  EquityCurve.State [EquityCurve.Point "2023-11-13" 990] false "".

End Sample.

(** * The rest of the component

    What surrounds the aggregation: the request of one symbol, the pieces of
    a run, the day keys of the buckets, the key of the symbols among the
    dependencies of the effect, and the metrics derived from the points. *)

(** ** The request of a symbol *)

Module Request.
Import Js.
Local Open Scope N_scope.

(** The bytes that the application/x-www-form-urlencoded serializer leaves
    as they are: ASCII letters and digits, and [*], [-], [.], [_]. *)
Definition unreserved (c : N) : bool :=
  (48 <=? c) && (c <=? 57) || (65 <=? c) && (c <=? 90) || (97 <=? c) && (c <=? 122)
  || (c =? 42) || (c =? 45) || (c =? 46) || (c =? 95).

(** An uppercase hexadecimal digit. *)
Definition hex_digit (n : N) : N := if n <? 10 then 48 + n else 55 + n.

(** One byte, serialized: a space becomes [+], a byte outside the
    unreserved ones becomes [%XX]. *)
Definition encode_byte (c : N) : list N :=
  if c =? 32 then [43]
  else if unreserved c then [c]
  else [37; hex_digit (c / 16); hex_digit (c mod 16)].

Definition encode_codes (cs : list N) : list N := concat (map encode_byte cs).

Definition of_codes (cs : list N) : string := string_of_list_ascii (map ascii_of_N cs).

(** The serialization of a name or value of [URLSearchParams]. *)
Definition urlencode (s : string) : string := of_codes (encode_codes (codes s)).

(** [if (db)]: [db] is [undefined] or a string, truthy when not empty. *)
Definition truthy (db : option string) : bool :=
  match db with
  | Some EmptyString | None => false
  | Some _ => true
  end.

(** [qs.toString()] for [qs = new URLSearchParams({ exchange, symbol: sym })],
    after [if (db) qs.set("db", db)]. *)
Definition query (exchange sym : string) (db : option string) : string :=
  "exchange=" +:+ urlencode exchange +:+ "&symbol=" +:+ urlencode sym
  +:+ match db with
      | Some d => if truthy db then "&db=" +:+ urlencode d else ""
      | None => ""
      end.

(** [`${API_BASE}/api/coin-stats/raw?${qs.toString()}`] *)
Definition request_url (API_BASE exchange sym : string) (db : option string) : string :=
  API_BASE +:+ "/api/coin-stats/raw?" +:+ query exchange sym db.

(** [const ALL_SYMBOLS] of the Entries page; [DEFAULT_SYMBOLS] of the
    component lists the same symbols. *)
Definition ALL_SYMBOLS : list string :=
  ["ADAUSDT"; "BTCUSDT"; "ETHUSDT"; "SOLUSDT"; "XRPUSDT"; "DOGEUSDT"; "PEPEUSDT"; "TRUMPUSDT"].

(** *** Notions the statements about the query use *)

(** The bytes the serializer can write. *)
Definition written (c : N) : bool := unreserved c || (c =? 43) || (c =? 37).

(** How often the byte [c] occurs in [s]. *)
Definition count_code (c : N) (s : string) : nat :=
  length (filter (fun x => x = c) (codes s)).

(** What follows a value in the query: nothing, or the [&] of the next
    parameter. *)
Definition boundary (t : list N) : Prop := t = [] \/ exists r, t = 38 :: r.

(** The [db] that reaches the query. *)
Definition sent_db (db : option string) : option string := if truthy db then db else None.

End Request.

(** ** The pieces of a run *)

Module Run.
Import Js EquityCurve.

(** The trades that the callback of a symbol loops over, when it reaches
    the loop: the response is a success, its body parsed, and [trades]
    could be read; a [trades] that is no array counts as empty. *)
Definition trades_of (E : engine) (f : fetched) : option (list value) :=
  match f with
  | Rejected _ => None
  | Resolved res =>
      if ok res then
        match json res with
        | Ok body =>
            match get E body "trades" with
            | Ok (Arr l) => Some l
            | Ok _ => Some []
            | Throw _ => None
            end
        | Throw _ => None
        end
      else None
  end.

(** The error a callback throws before it reads any trade: the rejection
    of [fetch], or [new Error(`${res.status} ${res.statusText}`)]. *)
Definition failure_of (f : fetched) : option exn :=
  match f with
  | Rejected e => Some e
  | Resolved res =>
      if ok res then None
      else Some (Exn "Error" (pretty (status res) +:+ " " +:+ statusText res))
  end.

(** A trade element that is neither an object nor [null]. *)
Definition plain (t : value) : bool :=
  match t with
  | Bool _ | Num _ | Str _ | Arr _ => true
  | _ => false
  end.

(** A value that is no array and no object. *)
Definition primitive (v : value) : bool :=
  match v with
  | Arr _ | Obj _ => false
  | _ => true
  end.

(** A trade that is an object whose properties all hold primitives. *)
Definition flat (t : value) : bool :=
  match t with
  | Obj props => forallb (fun kv => primitive kv.2) props
  | _ => false
  end.

End Run.

(** ** Day keys *)

Module Calendar.
Import Js.
Local Open Scope Z_scope.

(** [new Date(ms).toISOString().slice(0, 10)] for a valid date of time
    value [tv]: the key of the bucket of a trade. *)
Definition day_key (E : engine) (tv : Z) : result string :=
  iso ← toISOString E (Some tv);
  Ok (slice0 10 iso).

(** [s.slice(n)], as in the axis label [p.date.slice(5)]. *)
Definition slice_from (n : nat) (s : string) : string :=
  substring n (String.length s - n) s.

(** The part of [civil_from_days] that works on the day of the era: the
    year of the era, the month counted from March, and the day. *)
Definition ymd_of_doe (doe : Z) : Z * Z * Z :=
  let yoe := (doe - doe / 1460 + doe / 36524 - doe / 146096) / 365 in
  let doy := doe - (365 * yoe + yoe / 4 - yoe / 100) in
  let mp := (5 * doy + 2) / 153 in
  let d := doy - (153 * mp + 2) / 5 + 1 in
  (yoe, mp, d).

(** The order of calendar dates. *)
Definition lex_le (a b : Z * Z * Z) : Prop :=
  let '(y1, m1, d1) := a in let '(y2, m2, d2) := b in
  y1 < y2 \/ (y1 = y2 /\ (m1 < m2 \/ (m1 = m2 /\ d1 <= d2))).

End Calendar.

(** ** The dependencies of the effect *)

Module Effect.

(** [l.join(sep)] on an array of strings, as in [symbols.join(",")]. *)
Fixpoint join (sep : string) (l : list string) : string :=
  match l with
  | [] => ""
  | s :: rest =>
      match rest with
      | [] => s
      | _ => s +:+ sep +:+ join sep rest
      end
  end.

(** A string with no comma in it. *)
Fixpoint comma_free (s : string) : bool :=
  match s with
  | EmptyString => true
  | String c s' => negb (Ascii.eqb c ",") && comma_free s'
  end.

(** A string with no comma in it that is not empty. *)
Definition symbol_like (s : string) : bool :=
  comma_free s && negb (String.eqb s "").

End Effect.

(** ** The metrics of the chart *)

Module Render.
Import Js EquityCurve.
Local Open Scope float_scope.

Definition is_neg_zero (x : float) : bool :=
  match Prim2SF x with S754_zero true => true | _ => false end.
Definition is_pos_zero (x : float) : bool :=
  match Prim2SF x with S754_zero false => true | _ => false end.

(** The loop of [Math.min] over its (Number) arguments, from [lowest]
    (ECMA-262: NaN if an argument is NaN; [-0] is below [+0]). *)
Fixpoint min_from (lowest : float) (vals : list float) : float :=
  match vals with
  | [] => lowest
  | number :: rest =>
      if is_nan number then nan else
      let lowest := if is_neg_zero number && is_pos_zero lowest then neg_zero else lowest in
      let lowest := if number <? lowest then number else lowest in
      min_from lowest rest
  end.

(** The loop of [Math.max], from [highest]. *)
Fixpoint max_from (highest : float) (vals : list float) : float :=
  match vals with
  | [] => highest
  | number :: rest =>
      if is_nan number then nan else
      let highest := if is_pos_zero number && is_neg_zero highest then PrimFloat.zero else highest in
      let highest := if highest <? number then number else highest in
      max_from highest rest
  end.

Definition Math_min (vals : list float) : float := min_from infinity vals.
Definition Math_max (vals : list float) : float := max_from neg_infinity vals.

Record metrics := Metrics {
  hasData : bool;
  minEq : float;
  maxEq : float;
  finalEq : float;
  netPnl : float;
  netPositive : bool;
}.

Section Metrics.
(** The number of arguments a call can take in the engine at hand, and the
    message of the RangeError that a longer spread throws. *)
Context (max_args : nat) (msg_args : string).

(** [f(...vals)] *)
Definition spread (f : list float -> float) (vals : list float) : result float :=
  if (max_args <? length vals)%nat then Throw (RangeError msg_args) else Ok (f vals).

(** "Derive equity metrics", and [netPnl], [netPositive]. *)
Definition derive (startingBalance : float) (points : list point) : result metrics :=
  let hasData := (0 <? length points)%nat in
  '(minEq, maxEq, finalEq) ←
    match points with
    | [] => Ok (startingBalance, startingBalance, startingBalance)
    | p :: _ =>
        let vals := map equity points in
        mn ← spread Math_min vals;
        mx ← spread Math_max vals;
        Ok (mn, mx, equity (List.last points p))
    end;
  let netPnl := finalEq - startingBalance in
  Ok (Metrics hasData minEq maxEq finalEq netPnl (0 <=? netPnl)).

End Metrics.
End Render.

(** * Properties *)

Import Js EquityCurve.
Local Open Scope float_scope.

(** Two Numbers differ when their binary64 decompositions do. *)
Ltac float_neq :=
  let H := fresh in
  intro H; apply (f_equal Prim2SF) in H; vm_compute in H; discriminate H.

Ltac unfold_bind := unfold mbind, result_bind in *.

Lemma Some_inj_float (x y : float) : Some x = Some y -> y = x.
Proof.
  intros H.
  exact (f_equal (fun o => match o with Some z => z | None => y end) (eq_sym H)).
Qed.

(** ** The embedding on concrete inputs *)

Example Math_floor_values :
  Math_floor 1.5 = 1 /\ Math_floor (-1.5) = -2 /\ Math_floor (-0.5) = -1
  /\ Math_floor 0.5 = 0 /\ Math_floor (-0) = -0 /\ Math_floor nan = nan
  /\ Math_floor infinity = infinity /\ Math_floor (1700000000999 / 1000) = 1700000000.
Proof. repeat split; vm_compute; reflexivity. Qed.

Example StringToNumber_values :
  StringToNumber "12.5" = 12.5 /\ StringToNumber "" = 0 /\ StringToNumber "  42 " = 42
  /\ StringToNumber "-0" = -0 /\ StringToNumber "1e3" = 1000 /\ StringToNumber ".5" = 0.5
  /\ StringToNumber "0x1F" = 31 /\ StringToNumber "Infinity" = infinity
  /\ StringToNumber "1e400" = infinity /\ StringToNumber "0.1" = 0.1
  /\ StringToNumber "9007199254740993" = 9007199254740992
  /\ StringToNumber "12px" = nan /\ StringToNumber "1_000" = nan
  /\ StringToNumber "[object Object]" = nan.
Proof. repeat split; vm_compute; reflexivity. Qed.

Example toISOString_values (E : engine) :
  toISOString E (Date_of_number 0) = Ok "1970-01-01T00:00:00.000Z"
  /\ toISOString E (Date_of_number (-1)) = Ok "1969-12-31T23:59:59.999Z"
  /\ toISOString E (Date_of_number 1709251199999.5) = Ok "2024-02-29T23:59:59.999Z"
  /\ toISOString E (Date_of_number 4107542400000) = Ok "2100-03-01T00:00:00.000Z"
  /\ toISOString E (Date_of_number 253402300800000) = Ok "+010000-01-01T00:00:00.000Z"
  /\ toISOString E (Date_of_number (-62167219200001)) = Ok "-000001-12-31T23:59:59.999Z"
  /\ toISOString E (Date_of_number 8640000000000000) = Ok "+275760-09-13T00:00:00.000Z"
  /\ toISOString E (Date_of_number (-8640000000000000)) = Ok "-271821-04-20T00:00:00.000Z"
  /\ toISOString E (Date_of_number 8640000000000001) = Throw (RangeError (msg_invalid_time E))
  /\ toISOString E (Date_of_number nan) = Throw (RangeError (msg_invalid_time E)).
Proof. repeat split; vm_compute; reflexivity. Qed.

Example conversions_values (E : engine) :
  ToString E (Arr [Str "a"; Null; Arr [Str "b"; Bool true]; Obj []])
  = Ok "a,,b,true,[object Object]"
  /\ ToString E (Obj [("toString", Num 1)]) = Throw (TypeError (msg_no_primitive E))
  /\ ToNumber E (Arr []) = Ok 0 /\ ToNumber E (Arr [Str "12.5"]) = Ok 12.5
  /\ ToNumber E (Obj [("valueOf", Num 1)]) = Ok nan
  /\ ToNumber E (Bool true) = Ok 1 /\ ToNumber E Null = Ok 0.
Proof. repeat split; vm_compute; reflexivity. Qed.

(** The end-to-end example of the specification: one trade closed at
    1700000000 with a PnL of 50, from a starting balance of 1000. *)
Example fetchAll_one_trade :
  fetchAll Sample.engine 1000 [Sample.trades_response [Sample.trade 1700000000 50]]
    false (State [] false "")
  = State [Point "2023-11-14" 1050] false "".
Proof. vm_compute. reflexivity. Qed.

(** ** Field resolution *)

Section FieldFacts.
Context (E : engine).

Lemma first_present_at (p : string -> result (option float)) (fields : list string)
      (k : nat) (f : string) (n : float) :
  fields !! k = Some f ->
  (forall j g, (j < k)%nat -> fields !! j = Some g -> p g = Ok None) ->
  p f = Ok (Some n) ->
  first_present p fields = Ok (Some n).
Proof.
  revert k. induction fields as [|g rest IH]; intros k Hk Hbefore Hf.
  - discriminate Hk.
  - destruct k as [|k]; simpl in *.
    + injection Hk as ->. unfold_bind. now rewrite Hf.
    + unfold_bind. rewrite (Hbefore 0%nat g) by (simpl; auto; lia).
      apply (IH k); auto.
      intros j h Hj Hh. apply (Hbefore (S j) h); simpl; auto; lia.
Qed.

Lemma first_present_none (p : string -> result (option float)) (fields : list string) :
  Forall (fun f => p f = Ok None) fields -> first_present p fields = Ok None.
Proof.
  induction 1 as [|f rest Hf _ IH]; simpl; [reflexivity|].
  unfold_bind. now rewrite Hf.
Qed.

Lemma pl_block_resolve (t : value) (f : string) :
  pl_block E t f = (x ← get E t f; resolve_pl E x).
Proof.
  unfold pl_block. unfold_bind.
  destruct (get E t f) as [x|e]; [|reflexivity].
  destruct x; reflexivity.
Qed.

Lemma getCloseSec_unfold (t : value) :
  getCloseSec E t = first_present (probe E t) close_fields.
Proof.
  unfold getCloseSec, coalesce, close_fields. simpl. unfold_bind.
  fold (probe E t "close_timestamp") (probe E t "exit") (probe E t "close_time")
       (probe E t "timestamp") (probe E t "entry_timestamp").
  unfold probe. unfold_bind.
  destruct (get E t "close_timestamp") as [x1|]; [|reflexivity].
  destruct (toSec E x1) as [[?|]|]; try reflexivity.
  destruct (get E t "exit") as [x2|]; [|reflexivity].
  destruct (toSec E x2) as [[?|]|]; try reflexivity.
  destruct (get E t "close_time") as [x3|]; [|reflexivity].
  destruct (toSec E x3) as [[?|]|]; try reflexivity.
  destruct (get E t "timestamp") as [x4|]; [|reflexivity].
  destruct (toSec E x4) as [[?|]|]; try reflexivity.
  destruct (get E t "entry_timestamp") as [x5|]; [|reflexivity].
  destruct (toSec E x5) as [[?|]|]; reflexivity.
Qed.

Lemma getPL_unfold (t : value) :
  getPL E t = first_present (fun f => x ← get E t f; resolve_pl E x) pl_fields.
Proof.
  unfold getPL, pl_fields. simpl. rewrite !pl_block_resolve. unfold_bind.
  destruct (get E t "real_profit_loss") as [x1|]; [|reflexivity].
  destruct (resolve_pl E x1) as [[?|]|]; reflexivity.
Qed.

End FieldFacts.

(** ** Numbers of digit strings *)

Section DigitStrings.
Local Open Scope Z_scope.

Lemma Math_floor_integral (y : float) :
  isFinite (Math_floor y) = true -> integral (Math_floor y).
Proof.
  pose proof (SF2Prim_Prim2SF y) as Hy. unfold Math_floor.
  destruct (Prim2SF y) as [[|]|[|]| |s m e]; try (rewrite <- Hy; discriminate).
  - intros _. rewrite <- Hy. now left.
  - intros _. rewrite <- Hy. right. now exists 0.
  - intros _. right. eauto.
Qed.

Lemma is_dec_spec c : is_dec c = true <-> dec_digit c.
Proof. unfold is_dec, dec_digit. rewrite andb_true_iff, !N.leb_le. tauto. Qed.

Lemma dec_digit_cases c : dec_digit c ->
  c = 48%N \/ c = 49%N \/ c = 50%N \/ c = 51%N \/ c = 52%N
  \/ c = 53%N \/ c = 54%N \/ c = 55%N \/ c = 56%N \/ c = 57%N.
Proof. unfold dec_digit. lia. Qed.

Ltac digit_cases c H :=
  apply dec_digit_cases in H;
  destruct H as [->|[->|[->|[->|[->|[->|[->|[->|[->| ->]]]]]]]]].

Lemma trim_start_digit c r : dec_digit c -> trim_start (c :: r) = c :: r.
Proof.
  intros H. digit_cases c H; destruct r as [|c2 [|c3 r]]; reflexivity.
Qed.

Lemma trim_start_rev_digit c r : dec_digit c -> trim_start_rev (c :: r) = c :: r.
Proof.
  intros H. digit_cases c H; destruct r as [|c2 [|c3 r]]; simpl;
    rewrite ?andb_false_r; reflexivity.
Qed.

Lemma trim_digits ds : Forall dec_digit ds -> trim ds = ds.
Proof.
  intros H. unfold trim. destruct H as [|c r Hc Hr]; [reflexivity|].
  rewrite (trim_start_digit c r Hc).
  assert (Hrev : Forall dec_digit (rev (c :: r))) by (apply Forall_rev; now constructor).
  destruct (rev (c :: r)) as [|c' r'] eqn:E.
  - apply (f_equal (@length N)) in E. rewrite length_rev in E. discriminate.
  - apply Forall_cons in Hrev as [Hc' _]. rewrite (trim_start_rev_digit c' r' Hc').
    rewrite <- E. apply rev_involutive.
Qed.

Lemma span_digits_all ds : Forall dec_digit ds -> span_digits ds = (ds, []).
Proof.
  induction 1 as [|c r Hc _ IH]; simpl; [reflexivity|].
  apply is_dec_spec in Hc. now rewrite Hc, IH.
Qed.

Lemma dec_value_nonneg_from acc ds :
  Forall dec_digit ds -> 0 <= acc ->
  0 <= fold_left (fun acc c => 10 * acc + (Z.of_N c - 48)) ds acc.
Proof.
  intros H. revert acc. induction H as [|c r Hc _ IH]; intros acc Hacc; simpl; [exact Hacc|].
  apply IH. unfold dec_digit in Hc. lia.
Qed.

Lemma dec_to_float_int n : 0 <= n -> dec_to_float n 0 = of_Z n.
Proof.
  intros Hn. destruct n as [|p|p]; [reflexivity| |lia].
  unfold dec_to_float. simpl (0 <=? 0). cbv iota. now rewrite Z.pow_0_r, Z.mul_1_r.
Qed.

Lemma parse_unsigned_digits ds :
  Forall dec_digit ds -> ds <> [] ->
  parse_unsigned ds = Some (of_Z (dec_value ds)).
Proof.
  intros H Hne. unfold parse_unsigned. rewrite (span_digits_all ds H).
  destruct ds as [|c r]; [congruence|]. simpl parse_exponent. cbv iota beta.
  rewrite app_nil_r. simpl length. rewrite Z.sub_0_r.
  rewrite dec_to_float_int; [reflexivity|]. now apply dec_value_nonneg_from.
Qed.

Lemma parse_numeric_digits ds :
  Forall dec_digit ds -> ds <> [] ->
  parse_numeric ds = of_Z (dec_value ds).
Proof.
  intros H Hne.
  assert (Hu := parse_unsigned_digits ds H Hne).
  destruct H as [|c r Hc Hr]; [congruence|].
  assert (Hinf : parse_unsigned_or_inf (c :: r) = Some (of_Z (dec_value (c :: r)))).
  { unfold parse_unsigned_or_inf. destruct (decide (c :: r = Infinity_codes)) as [E|_]; [|exact Hu].
    injection E as -> _. unfold dec_digit in Hc. lia. }
  digit_cases c Hc; try (unfold parse_numeric; now rewrite Hinf).
  destruct r as [|p [|q r]]; try (unfold parse_numeric; now rewrite Hinf).
  apply Forall_cons in Hr as [Hp _].
  digit_cases p Hp; unfold parse_numeric; simpl; now rewrite Hu.
Qed.

Lemma codes_digits s : all_digits s = true -> Forall dec_digit (codes s).
Proof.
  induction s as [|c s IH]; simpl; [constructor|].
  intros H. apply andb_true_iff in H as [Hc Hs]. constructor; [|now apply IH].
  unfold is_digit in Hc. apply andb_true_iff in Hc as [H1 H2].
  apply N.leb_le in H1, H2. split; assumption.
Qed.

Lemma StringToNumber_digits s :
  all_digits s = true -> s <> EmptyString ->
  StringToNumber s = of_Z (dec_value (codes s)).
Proof.
  intros H Hne. unfold StringToNumber.
  assert (Hd := codes_digits s H). rewrite (trim_digits _ Hd).
  assert (Hc : codes s <> []) by (destruct s; [congruence|discriminate]).
  rewrite <- (parse_numeric_digits _ Hd Hc).
  destruct (codes s); [congruence|reflexivity].
Qed.

End DigitStrings.

(** C1.  The encodings of the instant 2023-11-14T22:13:20Z do not all
    normalise to 1700000000: the ten-digit Number, the thirteen-digit
    string, the ten-digit string and the ISO string do, but the Number
    1700000000000 is not above the threshold 2_000_000_000_000 of [toSec],
    which returns it unchanged, as if it counted seconds. *)
Theorem toSec_ms_number_unchanged (E : engine) :
  toSec E (Num 1700000000000) = Ok (Some 1700000000000)
  /\ 1700000000000 <> 1700000000
  /\ toSec E (Num 1700000000) = Ok (Some 1700000000)
  /\ toSec E (Str "1700000000000") = Ok (Some 1700000000)
  /\ toSec E (Str "1700000000") = Ok (Some 1700000000)
  /\ toSec Sample.engine (Str "2023-11-14T22:13:20.000Z") = Ok (Some 1700000000).
Proof.
  repeat split; try (vm_compute; reflexivity). float_neq.
Qed.

(** C4, as stated, fails: on the Number NaN [toSec] returns NaN, which is
    neither absent nor an integer, and a fraction passes through alike. *)
Lemma toSec_NaN_not_absent :
  toSec Sample.engine (Num nan) = Ok (Some nan)
  /\ toSec Sample.engine (Num nan) <> Ok None
  /\ toSec Sample.engine (Num 1.5) = Ok (Some 1.5).
Proof.
  repeat split; try (vm_compute; reflexivity). discriminate.
Qed.

(** [toSec] raises when [String(v)] does: an object from JSON whose own
    property [toString] shadows the inherited method has no primitive. *)
Lemma toSec_throws_on_shadowed_toString (E : engine) :
  exists e, toSec E (Obj [("toString", Null)]) = Throw e.
Proof. eexists. vm_compute. reflexivity. Qed.

(** C4, amended.  [toSec] is total on its embedding: it returns a Number or
    absent, and raises only when [String(v)] raises, never on [null],
    [undefined], a boolean, a Number or a string.  [null] and [undefined]
    are absent.  A Number is never absent: above 2e12 it is divided by 1000
    and floored, otherwise (NaN and fractions included) it is returned
    unchanged.  Any other value is absent exactly when its string is not
    made of 13 or of 10 digits and does not parse to a finite date, and
    what it gives otherwise is, when finite, an integer. *)
Theorem toSec_number_or_absent (E : engine) (v : value) :
  match v with
  | Undefined | Null => toSec E v = Ok None
  | Num n =>
      toSec E v = Ok (Some (if 2000000000000 <? n then Math_floor (n / 1000) else n))
  | Bool _ | Str _ | Arr _ | Obj _ =>
      match ToString E v with
      | Throw e => toSec E v = Throw e
      | Ok s =>
          exists r, toSec E v = Ok r
            /\ (r = None <->
                digits_exactly 13 s = false /\ digits_exactly 10 s = false
                /\ isFinite (getTime (Date_of_string E s)) = false)
            /\ (forall x, r = Some x -> isFinite x = true -> integral x)
      end
  end
  /\ (match v with Arr _ | Obj _ => True | _ => exists r, toSec E v = Ok r end).
Proof.
  assert (Hstr : forall s,
    exists r,
      (if digits_exactly 13 s then Ok (Some (Math_floor (StringToNumber s / 1000)))
       else if digits_exactly 10 s then Ok (Some (StringToNumber s))
       else Ok (if isFinite (getTime (Date_of_string E s))
                then Some (Math_floor (getTime (Date_of_string E s) / 1000))
                else None)) = Ok r
      /\ (r = None <->
          digits_exactly 13 s = false /\ digits_exactly 10 s = false
          /\ isFinite (getTime (Date_of_string E s)) = false)
      /\ (forall x, r = Some x -> isFinite x = true -> integral x)).
  { intros s.
    destruct (digits_exactly 13 s).
    { eexists. split; [reflexivity|]. split.
      - split; [discriminate|intros (?&?&?); discriminate].
      - intros x Hx. rewrite (Some_inj_float _ _ Hx). apply Math_floor_integral. }
    destruct (digits_exactly 10 s) eqn:H10.
    { eexists. split; [reflexivity|]. split.
      - split; [discriminate|intros (?&?&?); discriminate].
      - intros x Hx _. rewrite (Some_inj_float _ _ Hx). right.
        unfold digits_exactly in H10. apply andb_true_iff in H10 as [Hlen Hall].
        exists (dec_value (codes s)). apply StringToNumber_digits; [exact Hall|].
        intros ->. discriminate Hlen. }
    destruct (isFinite (getTime (Date_of_string E s))).
    - eexists. split; [reflexivity|]. split.
      + split; [discriminate|intros (?&?&?); discriminate].
      + intros x Hx. rewrite (Some_inj_float _ _ Hx). apply Math_floor_integral.
    - eexists. split; [reflexivity|]. split; [tauto|discriminate]. }
  destruct v as [| |b|n|s|l|ps]; unfold toSec; simpl nullish; cbv iota.
  - split; [reflexivity|eauto].
  - split; [reflexivity|eauto].
  - split.
    + change (ToString E (Bool b)) with (Ok (A:=string) (if b then "true" else "false")).
      unfold_bind. apply Hstr.
    + change (ToString E (Bool b)) with (Ok (A:=string) (if b then "true" else "false")).
      unfold_bind. destruct (Hstr (if b then "true" else "false")) as (r&Hr&_). eauto.
  - split; [|destruct (2000000000000 <? n); eauto].
    destruct (2000000000000 <? n); reflexivity.
  - split.
    + change (ToString E (Str s)) with (Ok (A:=string) s). unfold_bind. apply Hstr.
    + change (ToString E (Str s)) with (Ok (A:=string) s). unfold_bind.
      destruct (Hstr s) as (r&Hr&_). eauto.
  - split; [|exact I]. unfold_bind.
    destruct (ToString E (Arr l)) as [s|e]; [apply Hstr|reflexivity].
  - split; [|exact I]. unfold_bind.
    destruct (ToString E (Obj ps)) as [s|e]; [apply Hstr|reflexivity].
Qed.

(** C5.  [getPL] probes [real_profit_loss], [real_net_profit_loss],
    [real_net_pnl], [real_pnl] in this order and returns what the first
    field that resolves gives: a Number as it is, a present value of
    another type when its coercion is finite.  With [real_profit_loss: 5]
    and [real_net_pnl: 999] it returns 5; with [real_profit_loss: null] and
    [real_net_profit_loss: "12.5"] it returns 12.5. *)
Theorem getPL_priority (E : engine) (t : value) :
  getPL E t = first_present (fun f => x ← get E t f; resolve_pl E x) pl_fields
  /\ getPL E (Obj [("real_profit_loss", Num 5); ("real_net_pnl", Num 999)]) = Ok (Some 5)
  /\ getPL E (Obj [("real_profit_loss", Null); ("real_net_profit_loss", Str "12.5")])
     = Ok (Some 12.5).
Proof.
  split; [apply getPL_unfold|]. split; vm_compute; reflexivity.
Qed.

(** C6.  [getCloseSec] returns the first non-absent [toSec] of the fields
    [close_timestamp], [exit], [close_time], [timestamp],
    [entry_timestamp], in this order: a field that normalises to a Number,
    0 included, ends the search, and an absent one passes it on. *)
Theorem getCloseSec_first_present (E : engine) (t : value) :
  getCloseSec E t = first_present (probe E t) close_fields
  /\ (forall k f n, close_fields !! k = Some f ->
        (forall j g, (j < k)%nat -> close_fields !! j = Some g -> probe E t g = Ok None) ->
        probe E t f = Ok (Some n) ->
        getCloseSec E t = Ok (Some n))
  /\ (Forall (fun f => probe E t f = Ok None) close_fields -> getCloseSec E t = Ok None)
  /\ getCloseSec E (Obj [("close_timestamp", Num 0); ("exit", Num 1700000000)]) = Ok (Some 0)
  /\ getCloseSec E (Obj [("close_timestamp", Null); ("exit", Num 1700000000)])
     = Ok (Some 1700000000).
Proof.
  split; [apply getCloseSec_unfold|]. split.
  { intros k f n Hk Hbefore Hf. rewrite getCloseSec_unfold.
    eapply first_present_at; eauto. }
  split.
  { intros H. rewrite getCloseSec_unfold. now apply first_present_none. }
  split; vm_compute; reflexivity.
Qed.

(** ** The Equity Curve Builder *)

Lemma str_le_total : Total str_le.
Proof. intros a b. apply String.leb_total. Qed.

Lemma ascii_compare_N (a b : ascii) :
  Ascii.compare a b = N.compare (N_of_ascii a) (N_of_ascii b).
Proof. reflexivity. Qed.

Lemma str_le_trans : Transitive str_le.
Proof.
  unfold str_le, String.leb. intros a.
  induction a as [|c1 a IH]; intros [|c2 b] [|c3 c]; simpl; try easy.
  rewrite !ascii_compare_N.
  destruct (N.compare_spec (N_of_ascii c1) (N_of_ascii c2)) as [H12|H12|H12];
    destruct (N.compare_spec (N_of_ascii c2) (N_of_ascii c3)) as [H23|H23|H23];
    try easy.
  - rewrite H12, H23, N.compare_refl. apply IH.
  - intros _ _. rewrite H12. now apply N.compare_lt_iff in H23 as ->.
  - intros _ _. rewrite <- H23. now apply N.compare_lt_iff in H12 as ->.
  - intros _ _. assert (H13 : (N_of_ascii c1 < N_of_ascii c3)%N) by lia.
    now apply N.compare_lt_iff in H13 as ->.
Qed.

Lemma str_le_neq_lt (a b : string) : str_le a b -> a <> b -> str_lt a b.
Proof.
  unfold str_le, str_lt, String.leb, String.ltb. intros Hle Hne.
  destruct (String.compare a b) eqn:Hc; try easy.
  now apply String.compare_eq_iff in Hc.
Qed.

Lemma StronglySorted_strict (l : list string) :
  StronglySorted str_le l -> NoDup l -> StronglySorted str_lt l.
Proof.
  induction 1 as [|x l Hs IH Hall]; intros Hnd; constructor.
  - apply IH. now apply NoDup_cons in Hnd as [_ ?].
  - apply NoDup_cons in Hnd as [Hx _].
    rewrite Forall_forall in *. intros y Hy.
    apply str_le_neq_lt; [now apply Hall|]. intros ->. now apply Hx.
Qed.

Lemma elem_of_Object_keys (m : gmap string float) (d : string) :
  d ∈ Object_keys m <-> is_Some (m !! d).
Proof.
  unfold Object_keys. rewrite list_elem_of_fmap. split.
  - intros ([k v] & -> & Hin). apply elem_of_map_to_list in Hin. eauto.
  - intros [v Hv]. exists (d, v). split; [reflexivity|]. now apply elem_of_map_to_list.
Qed.

Lemma build_fold (m : gmap string float) (days : list string) (equity : float)
      (pts : list point) :
  snd (fold_left
         (fun '(equity, pts) day =>
            let equity' := equity + read_num m day in
            (equity', pts ++ [Point day equity']))
         days (equity, pts))
  = pts ++ running m equity days.
Proof.
  revert equity pts. induction days as [|d days IH]; intros equity pts; simpl.
  - now rewrite app_nil_r.
  - rewrite IH, <- app_assoc. reflexivity.
Qed.

Lemma running_dates (m : gmap string float) (equity : float) (days : list string) :
  date <$> running m equity days = days.
Proof.
  revert equity. induction days as [|d days IH]; intros equity; simpl; [reflexivity|].
  now rewrite IH.
Qed.

(** C2.  [build] sorts the keys of the daily sums in ascending order (here
    strictly: every key once), starts from the starting balance, and emits
    for each day the balance increased by the sum of that day; no day gives
    no point; and the sums 10 on 2024-01-01 and -5 on 2024-01-02 from the
    balance 100 give the points (2024-01-01, 110) and (2024-01-02, 105). *)
Theorem build_prefix_sum (dailyPL : gmap string float) (startingBalance : float) :
  let days := merge_sort str_le (Object_keys dailyPL) in
  StronglySorted str_lt days
  /\ (forall d, d ∈ days <-> is_Some (dailyPL !! d))
  /\ build dailyPL startingBalance = running dailyPL startingBalance days
  /\ date <$> build dailyPL startingBalance = days
  /\ build ∅ startingBalance = []
  /\ build (<["2024-01-01" := 10]> (<["2024-01-02" := -5]> ∅)) 100
     = [Point "2024-01-01" 110; Point "2024-01-02" 105].
Proof.
  intros days.
  assert (Hperm : days ≡ₚ Object_keys dailyPL) by apply merge_sort_Permutation.
  assert (Hbuild : build dailyPL startingBalance = running dailyPL startingBalance days).
  { unfold build. fold days. now rewrite build_fold. }
  split.
  { apply StronglySorted_strict.
    - apply (StronglySorted_merge_sort str_le (Transitive0 := str_le_trans) (Total0 := str_le_total)).
    - rewrite Hperm. unfold Object_keys. apply NoDup_fst_map_to_list. }
  split.
  { intros d. rewrite Hperm. apply elem_of_Object_keys. }
  split; [exact Hbuild|].
  split; [rewrite Hbuild; apply running_dates|].
  split; vm_compute; reflexivity.
Qed.

(** ** The run of [fetchAll] *)

Lemma foldM_app {A B : Type} (step : A -> B -> result A) (acc : A) (xs ys : list B) :
  foldM step acc (xs ++ ys) = (acc' ← foldM step acc xs; foldM step acc' ys).
Proof.
  revert acc. induction xs as [|x xs IH]; intros acc; simpl; [reflexivity|].
  unfold_bind. destruct (step acc x); [apply IH|reflexivity].
Qed.

Lemma foldM_cons {A B : Type} (step : A -> B -> result A) (acc : A) (x : B) (xs : list B) :
  foldM step acc (x :: xs) = (acc' ← step acc x; foldM step acc' xs).
Proof. reflexivity. Qed.

Lemma onSymbol_failed (E : engine) (m : gmap string float) (f : fetched) :
  fetch_failed f -> exists e, onSymbol E m f = Throw e.
Proof.
  destruct f as [e|res]; simpl; intros H; [eauto|]. rewrite H. simpl. eauto.
Qed.

Lemma foldM_onSymbol_failed (E : engine) (settled : list fetched) (m : gmap string float) :
  Exists fetch_failed settled -> exists e, foldM (onSymbol E) m settled = Throw e.
Proof.
  intros H. revert m. induction H as [f l Hf|f l _ IH]; intros m; simpl; unfold_bind.
  - destruct (onSymbol_failed E m f Hf) as [e ->]. eauto.
  - destruct (onSymbol E m f) as [m'|e]; [apply IH|eauto].
Qed.

Lemma reported_nonempty (e : exn) :
  (if String.eqb (message e) "" then "Failed to load" else message e) <> "".
Proof.
  destruct (String.eqb (message e) "") eqn:Heq; [discriminate|].
  now apply String.eqb_neq.
Qed.

(** C3.  When the fetch of one symbol fails (the transport rejects, or the
    status is not a success), the run commits no points, whatever the other
    symbols returned: the points shown before remain; and, unless the run
    was cancelled meanwhile, it leaves the loading state with a non-empty
    error message. *)
Theorem fetchAll_all_or_nothing (E : engine) (startingBalance : float)
        (settled : list fetched) (cancelled : bool) (st : state) :
  Exists fetch_failed settled ->
  points (fetchAll E startingBalance settled cancelled st) = points st
  /\ (cancelled = false ->
      err (fetchAll E startingBalance settled cancelled st) <> ""
      /\ loading (fetchAll E startingBalance settled cancelled st) = false).
Proof.
  intros H. unfold fetchAll.
  destruct (foldM_onSymbol_failed E settled ∅ H) as [e ->].
  destruct cancelled; simpl; split; try reflexivity; try discriminate.
  intros _. split; [apply reported_nonempty|reflexivity].
Qed.

Lemma fetchAll_all_or_nothing_witness :
  Exists fetch_failed [Sample.trades_response [Sample.trade 1700000000 50]; Sample.not_found]
  /\ points (fetchAll Sample.engine 1000
               [Sample.trades_response [Sample.trade 1700000000 50]; Sample.not_found]
               false Sample.shown)
     = points Sample.shown
  /\ err (fetchAll Sample.engine 1000
            [Sample.trades_response [Sample.trade 1700000000 50]; Sample.not_found]
            false Sample.shown)
     <> ""
  /\ loading (fetchAll Sample.engine 1000
                [Sample.trades_response [Sample.trade 1700000000 50]; Sample.not_found]
                false Sample.shown)
     = false.
Proof.
  assert (H : Exists fetch_failed
                [Sample.trades_response [Sample.trade 1700000000 50]; Sample.not_found]).
  { apply Exists_cons_tl, Exists_cons_hd. reflexivity. }
  split; [exact H|].
  destruct (fetchAll_all_or_nothing Sample.engine 1000 _ false Sample.shown H)
    as [Hpoints Hreport].
  split; [exact Hpoints|]. exact (Hreport eq_refl).
Defined.

(** C9, as stated, fails: a successful response whose body is not valid
    JSON makes [res.json()] reject, and the run reports that error; so does
    the body [null], whose [trades] cannot be read. *)
Lemma invalid_body_reported :
  err (fetchAll Sample.engine 1000
         [Sample.ok_response (Throw (Exn "SyntaxError" "Unexpected end of JSON input"))]
         false Sample.shown)
  = "Unexpected end of JSON input"
  /\ err (fetchAll Sample.engine 1000 [Sample.ok_response (Ok Null)] false Sample.shown)
     = "Cannot read properties of null (reading 'trades')".
Proof. split; vm_compute; reflexivity. Qed.

(** C9, amended.  A successful response whose body parsed to a value other
    than [null], and whose [trades] is missing or is no array, adds no
    trade and raises no error: the daily sums pass through its callback
    unchanged, and the run ends as if that symbol had not been asked for. *)
Theorem malformed_trades_tolerated (E : engine) (startingBalance : float)
        (before after : list fetched) (cancelled : bool) (st : state)
        (res : response) (body : value) :
  ok res = true ->
  json res = Ok body ->
  nullish body = false ->
  (forall l, get E body "trades" <> Ok (Arr l)) ->
  (forall dailyPL, onSymbol E dailyPL (Resolved res) = Ok dailyPL)
  /\ fetchAll E startingBalance (before ++ Resolved res :: after) cancelled st
     = fetchAll E startingBalance (before ++ after) cancelled st.
Proof.
  intros Hok Hjson Hbody Htrades.
  assert (Hsym : forall dailyPL, onSymbol E dailyPL (Resolved res) = Ok dailyPL).
  { intros m. unfold onSymbol. rewrite Hok, Hjson. simpl. unfold_bind.
    destruct (get E body "trades") as [tr|e] eqn:Hget.
    - destruct tr; try reflexivity. now elim (Htrades elems).
    - destruct body; simpl in *; discriminate. }
  split; [exact Hsym|].
  unfold fetchAll. rewrite !foldM_app.
  destruct (foldM (onSymbol E) ∅ before) as [m|e]; [|reflexivity].
  unfold_bind. rewrite foldM_cons. unfold_bind. now rewrite Hsym.
Qed.

Lemma malformed_trades_tolerated_witness :
  fetchAll Sample.engine 1000
    ([Sample.trades_response [Sample.trade 1700000000 50]]
     ++ Sample.ok_response (Ok (Obj [("trades", Str "none")])) :: [])
    false Sample.shown
  = fetchAll Sample.engine 1000
      ([Sample.trades_response [Sample.trade 1700000000 50]] ++ []) false Sample.shown.
Proof.
  refine (proj2 (malformed_trades_tolerated Sample.engine 1000 _ [] false Sample.shown
                   (Response true 200 "OK" (Ok (Obj [("trades", Str "none")])))
                   (Obj [("trades", Str "none")]) _ _ _ _)).
  - reflexivity.
  - reflexivity.
  - reflexivity.
  - intros l. vm_compute. discriminate.
Defined.

(** C10.  There is a trade whose close timestamp resolves to a finite Number
    that no Date holds: the Number -10^13 in [close_timestamp] passes
    through [toSec] as seconds, its thousandfold is beyond the range of
    time values, and formatting the day throws a RangeError.  The run that
    meets this trade commits no points and reports a failure instead of
    leaving the trade out. *)
Theorem out_of_range_timestamp_aborts (E : engine) :
  exists t c,
    getCloseSec E t = Ok (Some c)
    /\ isFinite c = true
    /\ Date_of_number (c * 1000) = None
    /\ (forall dailyPL, addTrade E dailyPL t = Throw (RangeError (msg_invalid_time E)))
    /\ (forall startingBalance before st,
          points (fetchAll E startingBalance
                    (before ++ [Sample.trades_response [Sample.trade 1700000000 50; t]])
                    false st) = points st
          /\ err (fetchAll E startingBalance
                    (before ++ [Sample.trades_response [Sample.trade 1700000000 50; t]])
                    false st) <> "").
Proof.
  exists (Sample.trade (-10000000000000) 1), (-10000000000000).
  split; [vm_compute; reflexivity|].
  split; [vm_compute; reflexivity|].
  split; [vm_compute; reflexivity|].
  assert (Hthrow : forall dailyPL,
             addTrade E dailyPL (Sample.trade (-10000000000000) 1)
             = Throw (RangeError (msg_invalid_time E))).
  { intros m. vm_compute. reflexivity. }
  split; [exact Hthrow|].
  intros sb before st. unfold fetchAll. rewrite foldM_app. unfold_bind.
  destruct (foldM (onSymbol E) ∅ before) as [m|e].
  - assert (Hrun : foldM (onSymbol E) m
                     [Sample.trades_response
                        [Sample.trade 1700000000 50; Sample.trade (-10000000000000) 1]]
                   = Throw (RangeError (msg_invalid_time E))).
    { rewrite foldM_cons.
      change (onSymbol E m (Sample.trades_response
                [Sample.trade 1700000000 50; Sample.trade (-10000000000000) 1]))
        with (m1 ← addTrade E m (Sample.trade 1700000000 50);
              m2 ← addTrade E m1 (Sample.trade (-10000000000000) 1); Ok m2).
      assert (H1 : exists m1, addTrade E m (Sample.trade 1700000000 50) = Ok m1)
        by (eexists; vm_compute; reflexivity).
      destruct H1 as [m1 ->]. unfold_bind. now rewrite Hthrow. }
    rewrite Hrun. split; [reflexivity|].
    apply (reported_nonempty (RangeError (msg_invalid_time E))).
  - simpl. split; [reflexivity|apply reported_nonempty].
Qed.

(** ** The Daily Aggregator *)

Section AggregateFacts.
Context (E : engine).

Lemma addTrade_contribution (m : gmap string float) (t : value) :
  addTrade E m t
  = (c ← contribution E t;
     Ok (match c with Some c => add_contribution m c | None => m end)).
Proof.
  unfold addTrade, contribution. unfold_bind.
  destruct (getCloseSec E t) as [[c|]|e]; simpl; try reflexivity.
  destruct (isFinite c); simpl; try reflexivity.
  destruct (getPL E t) as [[p|]|e]; simpl; try reflexivity.
  destruct (isFinite p); simpl; try reflexivity.
  destruct (toISOString E (Date_of_number (c * 1000))); reflexivity.
Qed.

Lemma aggregate_contributions (trades : list value) (m : gmap string float) :
  aggregate E m trades
  = (cs ← contributions E trades; Ok (fold_left add_contribution cs m)).
Proof.
  unfold aggregate. revert m.
  induction trades as [|t rest IH]; intros m; simpl; [reflexivity|].
  rewrite addTrade_contribution. unfold_bind.
  destruct (contribution E t) as [[c|]|e]; try reflexivity.
  - rewrite IH. destruct (contributions E rest); reflexivity.
  - rewrite IH. destruct (contributions E rest); reflexivity.
Qed.

Lemma skipped_contribution (t : value) : skipped E t -> contribution E t = Ok None.
Proof.
  unfold contribution. unfold_bind.
  intros [(c & -> & Hc)|(c & p & -> & -> & Hp)].
  - now rewrite Hc.
  - destruct (Number_isFinite c); simpl; [|reflexivity]. now rewrite Hp.
Qed.

Lemma contributions_skipped (trades : list value) :
  Forall (skipped E) trades -> contributions E trades = Ok [].
Proof.
  induction 1 as [|t rest Ht _ IH]; simpl; [reflexivity|].
  rewrite (skipped_contribution t Ht), IH. reflexivity.
Qed.

Lemma contributions_permutation (l l' : list value) (cs : list (string * float)) :
  l ≡ₚ l' -> contributions E l = Ok cs ->
  exists cs', contributions E l' = Ok cs' /\ cs ≡ₚ cs'.
Proof.
  intros Hperm. revert cs.
  induction Hperm as [|x l l' _ IH|x y l|l l' l'' _ IH1 _ IH2]; intros cs; simpl.
  - intros [= <-]. eauto.
  - unfold_bind. destruct (contribution E x) as [c|]; [|discriminate].
    destruct (contributions E l) as [cs0|]; [|discriminate].
    intros [= <-]. destruct (IH cs0 eq_refl) as (cs0' & -> & Hp).
    eexists. split; [reflexivity|]. destruct c; [now constructor|exact Hp].
  - unfold_bind. destruct (contribution E y) as [cy|]; [|discriminate].
    destruct (contribution E x) as [cx|]; [|discriminate].
    destruct (contributions E l) as [cs0|]; [|discriminate].
    intros [= <-]. eexists. split; [reflexivity|].
    destruct cx, cy; try reflexivity. apply perm_swap.
  - intros H. destruct (IH1 cs H) as (cs' & H' & Hp).
    destruct (IH2 cs' H') as (cs'' & H'' & Hp').
    exists cs''. split; [exact H''|]. now transitivity cs'.
Qed.

Lemma lookup_fold_contributions (cs : list (string * float)) (m : gmap string float)
      (d : string) :
  fold_left add_contribution cs m !! d = fold_left add_pl (pls_of_day d cs) (m !! d).
Proof.
  revert m. induction cs as [|[k p] cs IH]; intros m; [reflexivity|].
  simpl fold_left at 1. rewrite IH. unfold pls_of_day, add_contribution. simpl.
  rewrite filter_cons. simpl. destruct (decide (k = d)) as [->|Hne].
  - simpl. now rewrite lookup_insert_eq.
  - now rewrite lookup_insert_ne.
Qed.

Lemma dom_fold_contributions (cs : list (string * float)) (m : gmap string float) :
  dom (fold_left add_contribution cs m) = dom m ∪ list_to_set cs.*1.
Proof.
  revert m. induction cs as [|[k p] cs IH]; intros m; simpl.
  - now rewrite (right_id_L ∅ (∪)).
  - rewrite IH. unfold add_contribution. rewrite dom_insert_L. simpl.
    now rewrite (assoc_L (∪)), (comm_L (∪) (dom m)).
Qed.

End AggregateFacts.

(** C7, as stated, fails: the sums are binary64 sums taken in the order of
    the list, and that addition is not associative.  Three trades of one
    day with the PnLs 0.1, 0.2 and 0.3 sum to 0.6000000000000001, and to
    0.6 in the reverse order. *)
Lemma aggregate_depends_on_order :
  [Sample.trade 1700000000 0.1; Sample.trade 1700000000 0.2; Sample.trade 1700000000 0.3]
  ≡ₚ [Sample.trade 1700000000 0.3; Sample.trade 1700000000 0.2; Sample.trade 1700000000 0.1]
  /\ aggregate Sample.engine ∅
       [Sample.trade 1700000000 0.1; Sample.trade 1700000000 0.2; Sample.trade 1700000000 0.3]
     = Ok {[ "2023-11-14" := 0.6000000000000001 ]}
  /\ aggregate Sample.engine ∅
       [Sample.trade 1700000000 0.3; Sample.trade 1700000000 0.2; Sample.trade 1700000000 0.1]
     = Ok {[ "2023-11-14" := 0.6 ]}
  /\ aggregate Sample.engine ∅
       [Sample.trade 1700000000 0.1; Sample.trade 1700000000 0.2; Sample.trade 1700000000 0.3]
     <> aggregate Sample.engine ∅
       [Sample.trade 1700000000 0.3; Sample.trade 1700000000 0.2; Sample.trade 1700000000 0.1].
Proof.
  split.
  { etransitivity; [apply perm_swap|]. etransitivity; [apply perm_skip, perm_swap|].
    apply perm_swap. }
  split; [vm_compute; reflexivity|].
  split; [vm_compute; reflexivity|].
  intros H.
  apply (f_equal (fun r => match r with
                           | Ok m => read_num m "2023-11-14"
                           | Throw _ => nan
                           end)) in H.
  vm_compute in H. revert H. float_neq.
Qed.

(** C7, amended.  Permuting the trades of a list that aggregates without
    an exception gives daily sums on the same days; each sum is the sum of
    the PnLs of its day taken from left to right, so the sums are the same
    whenever the trades of every single day keep their relative order. *)
Theorem aggregate_permutation (E : engine) (dailyPL m : gmap string float)
        (trades trades' : list value) :
  trades ≡ₚ trades' ->
  aggregate E dailyPL trades = Ok m ->
  (forall d, m !! d = fold_left add_pl (day_pls E d trades) (dailyPL !! d))
  /\ exists m',
       aggregate E dailyPL trades' = Ok m'
       /\ dom m' = dom m
       /\ ((forall d, day_pls E d trades' = day_pls E d trades) -> m' = m).
Proof.
  intros Hperm. rewrite !aggregate_contributions. unfold day_pls. unfold_bind.
  destruct (contributions E trades) as [cs|] eqn:Hcs; [|discriminate].
  intros [= <-].
  destruct (contributions_permutation E _ _ _ Hperm Hcs) as (cs' & -> & Hp).
  split; [intros d; apply lookup_fold_contributions|].
  eexists. split; [reflexivity|]. split.
  - rewrite !dom_fold_contributions. f_equal.
    apply set_eq. intros k. rewrite !elem_of_list_to_set. now rewrite Hp.
  - intros Hdays. apply map_eq. intros d.
    rewrite !lookup_fold_contributions. now rewrite Hdays.
Qed.

Lemma aggregate_permutation_witness :
  exists m',
    aggregate Sample.engine ∅
      [Sample.trade 1600000000 0.2; Sample.trade 1700000000 0.1; Sample.trade 1700000000 0.3]
    = Ok m'
    /\ dom m' = dom ({[ "2023-11-14" := 0.4; "2020-09-13" := 0.2 ]} : gmap string float)
    /\ ((forall d,
           day_pls Sample.engine d
             [Sample.trade 1600000000 0.2; Sample.trade 1700000000 0.1;
              Sample.trade 1700000000 0.3]
           = day_pls Sample.engine d
               [Sample.trade 1700000000 0.1; Sample.trade 1600000000 0.2;
                Sample.trade 1700000000 0.3]) ->
        m' = {[ "2023-11-14" := 0.4; "2020-09-13" := 0.2 ]}).
Proof.
  refine (proj2 (aggregate_permutation Sample.engine ∅ _
                   [Sample.trade 1700000000 0.1; Sample.trade 1600000000 0.2;
                    Sample.trade 1700000000 0.3]
                   [Sample.trade 1600000000 0.2; Sample.trade 1700000000 0.1;
                    Sample.trade 1700000000 0.3] _ _)).
  - apply perm_swap.
  - vm_compute. reflexivity.
Defined.

(** C8, as stated, fails: a trade may have a close timestamp that is not
    absent and a finite PnL, and still reach no bucket.  With the timestamp
    Infinity (what JSON's 1e400 parses to) the first guard of the loop
    skips it; with -10^13 the loop throws while formatting the day. *)
Lemma resolved_trade_without_bucket :
  getCloseSec Sample.engine (Sample.trade infinity 5) = Ok (Some infinity)
  /\ getPL Sample.engine (Sample.trade infinity 5) = Ok (Some 5)
  /\ isFinite 5 = true
  /\ aggregate Sample.engine ∅ [Sample.trade infinity 5] = Ok ∅
  /\ getCloseSec Sample.engine (Sample.trade (-10000000000000) 5)
     = Ok (Some (-10000000000000))
  /\ aggregate Sample.engine ∅ [Sample.trade (-10000000000000) 5]
     = Throw (RangeError "Invalid time value").
Proof. repeat split; vm_compute; reflexivity. Qed.

(** C8, amended.  A trade whose close timestamp resolves to absent or to a
    Number that is not finite, or whose PnL resolves to absent or to a
    Number that is not finite, adds to no bucket: a list of such trades
    aggregates as the empty list does.  A trade whose close timestamp
    resolves to a finite Number within the range of dates, and whose PnL
    resolves to a finite Number, adds its PnL to the bucket of one day and
    leaves every other bucket as it was. *)
Theorem aggregate_skips_or_adds_once (E : engine) (dailyPL : gmap string float) :
  (forall trades, Forall (skipped E) trades ->
     aggregate E dailyPL trades = Ok dailyPL
     /\ aggregate E dailyPL trades = aggregate E dailyPL [])
  /\ (forall t c p tv,
        getCloseSec E t = Ok (Some c) -> isFinite c = true ->
        getPL E t = Ok (Some p) -> isFinite p = true ->
        Date_of_number (c * 1000) = Some tv ->
        exists day m,
          toISOString E (Some tv) = Ok day
          /\ aggregate E dailyPL [t] = Ok m
          /\ m !! slice0 10 day = Some (or_zero (dailyPL !! slice0 10 day) + p)
          /\ forall d, d <> slice0 10 day -> m !! d = dailyPL !! d).
Proof.
  split.
  - intros trades Hall. rewrite aggregate_contributions.
    rewrite (contributions_skipped E trades Hall). split; reflexivity.
  - intros t c p tv Hc Hfc Hp Hfp Hd.
    unfold aggregate. simpl. unfold addTrade. unfold_bind.
    rewrite Hc, Hfc, Hp, Hfp, Hd. simpl.
    eexists _, _. split; [reflexivity|]. split; [reflexivity|]. split.
    + apply lookup_insert_eq.
    + intros d Hne. now apply lookup_insert_ne.
Qed.

Lemma aggregate_skips_or_adds_once_witness :
  aggregate Sample.engine ∅
    [Obj []; Sample.trade infinity 5; Sample.trade 1700000000 (0 / 0);
     Obj [("close_timestamp", Num 1700000000)]]
  = Ok ∅
  /\ exists day m,
       toISOString Sample.engine (Some 1700000000000%Z) = Ok day
       /\ aggregate Sample.engine ∅ [Sample.trade 1700000000 50] = Ok m
       /\ m !! slice0 10 day
          = Some (or_zero ((∅ : gmap string float) !! slice0 10 day) + 50)
       /\ forall d, d <> slice0 10 day -> m !! d = (∅ : gmap string float) !! d.
Proof.
  split.
  - refine (proj1 (proj1 (aggregate_skips_or_adds_once Sample.engine ∅) _ _)).
    apply Forall_cons_2; [left; exists None; split; reflexivity|].
    apply Forall_cons_2; [left; exists (Some infinity); split; reflexivity|].
    apply Forall_cons_2;
      [right; exists (Some 1700000000), (Some nan); repeat split; reflexivity|].
    apply Forall_cons_2;
      [right; exists (Some 1700000000), None; repeat split; reflexivity|].
    apply Forall_nil_2.
  - refine (proj2 (aggregate_skips_or_adds_once Sample.engine ∅)
              (Sample.trade 1700000000 50) 1700000000 50 1700000000000%Z _ _ _ _ _);
      reflexivity.
Defined.

(** * Further properties

    Properties of the code around the aggregation, read off the source. *)

Import Request Run Calendar Effect Render.

(** ** A run as one aggregation *)

Lemma onSymbol_trades_of E m f l :
  trades_of E f = Some l -> onSymbol E m f = aggregate E m l.
Proof.
  destruct f as [e|res]; simpl; [discriminate|].
  destruct (ok res); simpl; [|discriminate].
  destruct (json res) as [body|]; simpl; [|discriminate].
  unfold_bind.
  destruct (get E body "trades") as [tr|]; [|discriminate].
  destruct tr; intros [= <-]; reflexivity.
Qed.

Lemma aggregate_app E m l1 l2 :
  aggregate E m (l1 ++ l2) = (m' ← aggregate E m l1; aggregate E m' l2).
Proof. apply foldM_app. Qed.

Lemma foldM_trades_of E (settled : list fetched) (tradess : list (list value))
      (dailyPL : gmap string float) :
  Forall2 (fun f l => trades_of E f = Some l) settled tradess ->
  foldM (onSymbol E) dailyPL settled = aggregate E dailyPL (concat tradess).
Proof.
  intros H. revert dailyPL. induction H as [|f l rest ls Hf _ IH]; intros m; [reflexivity|].
  rewrite foldM_cons, (onSymbol_trades_of E m f l Hf). simpl concat.
  rewrite aggregate_app. unfold_bind.
  destruct (aggregate E m l); [apply IH|reflexivity].
Qed.

(** X1.  When every fetch succeeds with a body that can be read, a run is
    one aggregation: the trades of the responses, concatenated in the order
    in which the callbacks resumed, are aggregated from the empty sums; the
    run then commits the curve built from them and leaves the loading state
    with no error, or, if a trade made the loop throw, keeps the points and
    reports that error. *)
Theorem run_aggregates_one_stream (E : engine) (startingBalance : float)
        (settled : list fetched) (tradess : list (list value)) (st : state) :
  Forall2 (fun f l => trades_of E f = Some l) settled tradess ->
  fetchAll E startingBalance settled false st
  = match aggregate E ∅ (concat tradess) with
    | Ok dailyPL => State (build dailyPL startingBalance) false ""
    | Throw e =>
        State (points st) false
          (if String.eqb (message e) "" then "Failed to load" else message e)
    end.
Proof.
  intros H. unfold fetchAll. rewrite (foldM_trades_of E settled tradess ∅ H).
  destruct (aggregate E ∅ (concat tradess)); reflexivity.
Qed.

Lemma run_aggregates_one_stream_witness :
  fetchAll Sample.engine 1000
    [Sample.trades_response [Sample.trade 1700000000 50];
     Sample.ok_response (Ok (Obj []));
     Sample.trades_response [Sample.trade 1700000000 0.5; Sample.trade 1600000000 (-7)]]
    false Sample.shown
  = State [Point "2020-09-13" 993; Point "2023-11-14" 1043.5] false "".
Proof.
  rewrite (run_aggregates_one_stream Sample.engine 1000 _
             [[Sample.trade 1700000000 50]; [];
              [Sample.trade 1700000000 0.5; Sample.trade 1600000000 (-7)]]).
  - vm_compute. reflexivity.
  - repeat constructor.
Defined.

(** X2.  When every fetch succeeds and the guards of the loop skip every
    trade of every response, the run commits the empty list of points, with
    no error: the chart falls back to its empty state. *)
Theorem run_without_usable_trades (E : engine) (startingBalance : float)
        (settled : list fetched) (tradess : list (list value)) (st : state) :
  Forall2 (fun f l => trades_of E f = Some l) settled tradess ->
  Forall (skipped E) (concat tradess) ->
  fetchAll E startingBalance settled false st = State [] false "".
Proof.
  intros H Hskip. unfold fetchAll. rewrite (foldM_trades_of E settled tradess ∅ H).
  rewrite aggregate_contributions, (contributions_skipped E _ Hskip). reflexivity.
Qed.

Lemma run_without_usable_trades_witness :
  fetchAll Sample.engine 1000
    [Sample.trades_response []; Sample.ok_response (Ok (Obj []));
     Sample.trades_response [Obj []; Sample.trade infinity 5]]
    false Sample.shown
  = State [] false "".
Proof.
  apply (run_without_usable_trades Sample.engine 1000 _
           [[]; []; [Obj []; Sample.trade infinity 5]]).
  - repeat constructor.
  - apply Forall_cons_2; [left; exists None; split; reflexivity|].
    apply Forall_cons_2; [left; exists (Some infinity); split; reflexivity|].
    apply Forall_nil_2.
Defined.

Lemma plain_skipped E t : plain t = true -> skipped E t.
Proof.
  intros H. left. exists None. split; [|reflexivity].
  destruct t; try discriminate; reflexivity.
Qed.

Lemma foldM_throws {A B : Type} (step : A -> B -> result A) (xs : list B) (acc : A) :
  Exists (fun x => forall a, exists e, step a x = Throw e) xs ->
  exists e, foldM step acc xs = Throw e.
Proof.
  intros H. revert acc. induction H as [x l Hx|x l _ IH]; intros acc; simpl; unfold_bind.
  - destruct (Hx acc) as [e ->]. eauto.
  - destruct (step acc x); [apply IH|eauto].
Qed.

(** X3.  Elements of [trades] that are booleans, Numbers, strings or arrays
    are skipped: a list of them leaves the sums as they were.  A [null]
    element aborts the aggregation: reading [close_timestamp] on it throws
    a TypeError. *)
Theorem plain_elements_skipped_null_aborts (E : engine) (dailyPL : gmap string float)
        (trades : list value) :
  (Forall (fun t => plain t = true) trades -> aggregate E dailyPL trades = Ok dailyPL)
  /\ (Null ∈ trades -> exists e, aggregate E dailyPL trades = Throw e)
  /\ addTrade E dailyPL Null = Throw (TypeError (msg_read_nullish E true "close_timestamp")).
Proof.
  split; [|split].
  - intros H. rewrite aggregate_contributions, (contributions_skipped E trades); [reflexivity|].
    eapply Forall_impl; [exact H|]. intros t. apply plain_skipped.
  - intros H. apply foldM_throws. apply Exists_exists. exists Null. split; [exact H|].
    intros a. eexists. reflexivity.
  - reflexivity.
Qed.

Lemma first_present_found (p : string -> result (option float)) fields n :
  first_present p fields = Ok (Some n) -> exists f, f ∈ fields /\ p f = Ok (Some n).
Proof.
  induction fields as [|f rest IH]; simpl; [discriminate|]. unfold_bind.
  destruct (p f) as [[x|]|] eqn:Hp; try discriminate.
  - intros H. exists f. split; [left|rewrite Hp; exact H].
  - intros H. destruct (IH H) as (g & Hg & Hpg). exists g. split; [now right|exact Hpg].
Qed.

(** X4.  What [getPL] returns is finite, or is the Number that one of the
    four fields holds as such: a coerced value that is not finite is never
    returned. *)
Theorem getPL_finite_unless_raw (E : engine) (t : value) (p : float) :
  getPL E t = Ok (Some p) ->
  isFinite p = true \/ exists f, f ∈ pl_fields /\ get E t f = Ok (Num p).
Proof.
  rewrite getPL_unfold. intros H.
  apply first_present_found in H as (f & Hf & Hp). unfold_bind.
  destruct (get E t f) as [x|] eqn:Hget; [|discriminate].
  assert (Hcoerce : forall v, (v0 ← ToNumber E v; Ok (if isFinite v0 then Some v0 else None))
                              = Ok (Some p) -> isFinite p = true).
  { intros v. unfold_bind. destruct (ToNumber E v) as [y|]; [|discriminate].
    destruct (isFinite y) eqn:Hy; [|discriminate].
    intros Hs. assert (Hyp : Some y = Some p) by congruence.
    rewrite (Some_inj_float _ _ Hyp). exact Hy. }
  destruct x as [| |b|n|s|l|ps]; try (simpl in Hp; discriminate);
    try (left; exact (Hcoerce _ Hp)). simpl in Hp.
  right. exists f. split; [exact Hf|].
  assert (Hn : Some n = Some p) by congruence.
  rewrite (Some_inj_float _ _ Hn). exact Hget.
Qed.

Lemma onSymbol_failure_of E m f e : failure_of f = Some e -> onSymbol E m f = Throw e.
Proof.
  destruct f as [e'|res]; simpl.
  - now intros [= ->].
  - destruct (ok res); simpl; [discriminate|]. now intros [= <-].
Qed.

(** X5.  The error shown is that of the first callback that fails: when
    the callbacks before it aggregated their trades without an exception,
    the run keeps the points and reports the rejection of that fetch, or
    its status line, whatever settles after it. *)
Theorem first_failure_reported (E : engine) (startingBalance : float)
        (before after : list fetched) (tradess : list (list value)) (f : fetched)
        (e : exn) (dailyPL : gmap string float) (st : state) :
  Forall2 (fun f l => trades_of E f = Some l) before tradess ->
  aggregate E ∅ (concat tradess) = Ok dailyPL ->
  failure_of f = Some e ->
  fetchAll E startingBalance (before ++ f :: after) false st
  = State (points st) false
      (if String.eqb (message e) "" then "Failed to load" else message e).
Proof.
  intros Hb Hagg Hf. unfold fetchAll. rewrite foldM_app.
  rewrite (foldM_trades_of E before tradess ∅ Hb), Hagg. unfold_bind.
  rewrite foldM_cons, (onSymbol_failure_of E dailyPL f e Hf). reflexivity.
Qed.

Lemma first_failure_reported_witness :
  fetchAll Sample.engine 1000
    ([Sample.trades_response [Sample.trade 1700000000 50]]
       ++ Sample.not_found :: [Rejected (Exn "TypeError" "Failed to fetch")])
    false Sample.shown
  = State (points Sample.shown) false
      (if String.eqb (message (Exn "Error" "404 Not Found")) ""
       then "Failed to load" else message (Exn "Error" "404 Not Found")).
Proof.
  apply (first_failure_reported Sample.engine 1000 _ _ [[Sample.trade 1700000000 50]]
           Sample.not_found (Exn "Error" "404 Not Found")
           {[ "2023-11-14" := 50 ]}).
  - repeat constructor.
  - vm_compute. reflexivity.
  - reflexivity.
Defined.

Section FlatTrades.
Context (E : engine).

Lemma own_primitive name props :
  forallb (fun kv : string * value => primitive kv.2) props = true ->
  primitive (default Undefined (own name props)) = true.
Proof.
  induction props as [|[k v] rest IH]; simpl; [reflexivity|].
  intros H. apply andb_true_iff in H as [Hv Hrest].
  destruct (String.eqb k name); [exact Hv|now apply IH].
Qed.

Lemma get_flat t name :
  flat t = true -> exists x, get E t name = Ok x /\ primitive x = true.
Proof.
  destruct t; try discriminate. simpl. intros H.
  eexists. split; [reflexivity|]. now apply own_primitive.
Qed.

Lemma toSec_primitive x : primitive x = true -> exists r, toSec E x = Ok r.
Proof.
  destruct x as [| |b|n|s|l|ps]; try discriminate; intros _; unfold toSec; simpl;
    unfold_bind;
    repeat match goal with |- context [if ?b then _ else _] => destruct b end; eauto.
Qed.

Lemma resolve_pl_primitive x : primitive x = true -> exists r, resolve_pl E x = Ok r.
Proof.
  destruct x as [| |b|n|s|l|ps]; try discriminate; intros _; simpl; unfold_bind; eauto.
Qed.

Lemma first_present_ok (p : string -> result (option float)) fields :
  (forall f, exists r, p f = Ok r) -> exists r, first_present p fields = Ok r.
Proof.
  intros Hp. induction fields as [|f rest IH]; simpl; [eauto|]. unfold_bind.
  destruct (Hp f) as [[n|] ->]; eauto.
Qed.

Lemma getCloseSec_flat t : flat t = true -> exists r, getCloseSec E t = Ok r.
Proof.
  intros H. rewrite getCloseSec_unfold. apply first_present_ok. intros f.
  unfold probe. unfold_bind. destruct (get_flat t f H) as (x & -> & Hx).
  now apply toSec_primitive.
Qed.

Lemma getPL_flat t : flat t = true -> exists r, getPL E t = Ok r.
Proof.
  intros H. rewrite getPL_unfold. apply first_present_ok. intros f.
  unfold_bind. destruct (get_flat t f H) as (x & -> & Hx).
  now apply resolve_pl_primitive.
Qed.

Lemma toISOString_valid tv : exists iso, toISOString E (Some tv) = Ok iso.
Proof.
  unfold toISOString. destruct (civil_from_days (tv / 86400000)) as [[y mo] d]. eauto.
Qed.

Lemma addTrade_flat m t :
  flat t = true ->
  (exists m', addTrade E m t = Ok m')
  \/ addTrade E m t = Throw (RangeError (msg_invalid_time E)).
Proof.
  intros H. unfold addTrade. unfold_bind.
  destruct (getCloseSec_flat t H) as [[c|] ->]; [|eauto].
  destruct (isFinite c); cbn [negb]; cbv iota; [|eauto].
  destruct (getPL_flat t H) as [[p|] ->]; [|eauto].
  destruct (isFinite p); cbn [negb]; cbv iota; [|eauto].
  destruct (Date_of_number (c * 1000)) as [tv|]; [|now right].
  destruct (toISOString_valid tv) as [iso ->]. eauto.
Qed.

(** X6.  Over trades that are objects holding only primitives (and elements
    that are no objects), the aggregation completes, or throws the
    RangeError of a date out of range; it throws nothing else. *)
Theorem flat_trades_throw_only_RangeError (dailyPL : gmap string float) (trades : list value) :
  Forall (fun t => flat t || plain t = true) trades ->
  (exists m, aggregate E dailyPL trades = Ok m)
  \/ aggregate E dailyPL trades = Throw (RangeError (msg_invalid_time E)).
Proof.
  intros H. revert dailyPL. unfold aggregate.
  induction H as [|t rest Ht _ IH]; intros m; [left; eexists; reflexivity|].
  rewrite foldM_cons. unfold_bind.
  apply orb_true_iff in Ht as [Ht|Ht].
  - destruct (addTrade_flat m t Ht) as [[m' ->]| ->]; [apply IH|now right].
  - assert (Hs : addTrade E m t = Ok m).
    { destruct t; try discriminate Ht; reflexivity. }
    rewrite Hs. apply IH.
Qed.
End FlatTrades.

Lemma flat_trades_throw_only_RangeError_witness :
  (exists m, aggregate Sample.engine ∅ [Sample.trade 1700000000 50; Num 3; Obj [("exit", Null)]]
             = Ok m)
  \/ aggregate Sample.engine ∅ [Sample.trade 1700000000 50; Num 3; Obj [("exit", Null)]]
     = Throw (RangeError (msg_invalid_time Sample.engine)).
Proof.
  apply (flat_trades_throw_only_RangeError Sample.engine ∅
           [Sample.trade 1700000000 50; Num 3; Obj [("exit", Null)]]).
  repeat constructor.
Defined.

Lemma getPL_finite_unless_raw_witness :
  isFinite 12.5 = true
  \/ exists f, f ∈ pl_fields
       /\ get Sample.engine (Obj [("real_net_pnl", Str "12.5")]) f = Ok (Num 12.5).
Proof.
  apply (getPL_finite_unless_raw Sample.engine (Obj [("real_net_pnl", Str "12.5")]) 12.5).
  vm_compute. reflexivity.
Defined.

(** ** Timestamps written as digits *)

(** X7.  A string of exactly ten digits is read as that count of seconds,
    and a string of exactly thirteen digits as that count of milliseconds,
    divided by 1000 and floored, whatever the digits. *)
Theorem toSec_digit_strings (E : engine) (s : string) :
  all_digits s = true ->
  (String.length s = 10%nat ->
     toSec E (Str s) = Ok (Some (of_Z (dec_value (codes s)))))
  /\ (String.length s = 13%nat ->
     toSec E (Str s) = Ok (Some (Math_floor (of_Z (dec_value (codes s)) / 1000)))).
Proof.
  intros Hd. split; intros Hlen.
  - assert (Hne : s <> "") by (intros ->; discriminate).
    unfold toSec. cbn [nullish ToString]. unfold_bind. unfold digits_exactly.
    rewrite Hlen, Hd. cbn. now rewrite (StringToNumber_digits s Hd Hne).
  - assert (Hne : s <> "") by (intros ->; discriminate).
    unfold toSec. cbn [nullish ToString]. unfold_bind. unfold digits_exactly.
    rewrite Hlen, Hd. cbn. now rewrite (StringToNumber_digits s Hd Hne).
Qed.

Lemma toSec_digit_strings_witness :
  (String.length "1700000000" = 10%nat ->
     toSec Sample.engine (Str "1700000000") = Ok (Some (of_Z (dec_value (codes "1700000000")))))
  /\ (String.length "1700000000" = 13%nat ->
     toSec Sample.engine (Str "1700000000")
     = Ok (Some (Math_floor (of_Z (dec_value (codes "1700000000")) / 1000)))).
Proof. apply (toSec_digit_strings Sample.engine "1700000000"). reflexivity. Defined.

(** ** The request of a symbol *)

Section RequestFacts.
Local Open Scope N_scope.

(** Bytes the serializer can write. *)
Lemma hex_digit_written n : n < 16 -> unreserved (hex_digit n) = true.
Proof.
  intros H. unfold hex_digit, unreserved.
  destruct (N.ltb_spec n 10);
    repeat (rewrite orb_true_iff || rewrite andb_true_iff || rewrite N.leb_le || rewrite N.eqb_eq);
    lia.
Qed.

Lemma hex_digit_inj n m : n < 16 -> m < 16 -> hex_digit n = hex_digit m -> n = m.
Proof.
  unfold hex_digit. intros Hn Hm.
  destruct (N.ltb_spec n 10), (N.ltb_spec m 10); lia.
Qed.

Lemma encode_byte_written c : c < 256 -> Forall (fun x => written x = true) (encode_byte c).
Proof.
  intros Hc. unfold encode_byte.
  destruct (c =? 32); [repeat constructor|].
  destruct (unreserved c) eqn:Hu.
  - repeat constructor. unfold written. now rewrite Hu.
  - assert (c / 16 < 16) by (apply N.Div0.div_lt_upper_bound; lia).
    assert (c mod 16 < 16) by (apply N.mod_lt; lia).
    repeat constructor; unfold written; rewrite ?hex_digit_written by assumption; reflexivity.
Qed.

Lemma codes_lt s : Forall (fun c => c < 256) (codes s).
Proof.
  unfold codes. induction s as [|a s IH]; simpl; constructor; [|exact IH].
  apply N_ascii_bounded.
Qed.

Lemma encode_codes_written cs :
  Forall (fun c => c < 256) cs -> Forall (fun x => written x = true) (encode_codes cs).
Proof.
  unfold encode_codes. induction 1 as [|c r Hc _ IH]; simpl; [constructor|].
  apply Forall_app. split; [now apply encode_byte_written|exact IH].
Qed.

Lemma codes_of_codes cs : Forall (fun c => c < 256) cs -> codes (of_codes cs) = cs.
Proof.
  unfold codes, of_codes. induction 1 as [|c r Hc _ IH]; simpl; [reflexivity|].
  rewrite IH. f_equal. apply N_ascii_embedding. exact Hc.
Qed.

Lemma written_lt c : written c = true -> c < 256.
Proof.
  unfold written, unreserved.
  repeat (rewrite orb_true_iff || rewrite andb_true_iff || rewrite N.leb_le || rewrite N.eqb_eq).
  lia.
Qed.

Lemma codes_urlencode s : codes (urlencode s) = encode_codes (codes s).
Proof.
  unfold urlencode. apply codes_of_codes.
  eapply Forall_impl; [apply encode_codes_written, codes_lt|]. apply written_lt.
Qed.

Lemma codes_app s1 s2 : codes (s1 +:+ s2) = codes s1 ++ codes s2.
Proof.
  unfold codes. induction s1 as [|a s1 IH]; simpl; [reflexivity|]. now rewrite IH.
Qed.

Lemma codes_inj s1 s2 : codes s1 = codes s2 -> s1 = s2.
Proof.
  unfold codes. revert s2. induction s1 as [|a s1 IH]; intros [|b s2]; simpl; try discriminate.
  - reflexivity.
  - intros H. injection H as Hab Hs. f_equal; [|now apply IH].
    rewrite <- (ascii_N_embedding a), <- (ascii_N_embedding b). now rewrite Hab.
Qed.

Lemma count_code_app c s1 s2 : count_code c (s1 +:+ s2) = (count_code c s1 + count_code c s2)%nat.
Proof. unfold count_code. now rewrite codes_app, filter_app, length_app. Qed.

Lemma count_code_urlencode c s : written c = false -> count_code c (urlencode s) = 0%nat.
Proof.
  intros Hc. unfold count_code. rewrite codes_urlencode.
  assert (H := encode_codes_written (codes s) (codes_lt s)).
  induction H as [|x l Hx _ IH]; [reflexivity|].
  rewrite filter_cons. destruct (decide (x = c)) as [->|_]; [congruence|exact IH].
Qed.

(** X8.  Whatever the exchange, the symbol and [db] are, the query holds one
    [&] and two [=], or two [&] and three [=] when [db] is sent, and no [#],
    [?] or space: a value cannot add a parameter or end the query. *)
Theorem query_separators (exchange sym : string) (db : option string) :
  count_code 38 (query exchange sym db) = (if truthy db then 2 else 1)%nat
  /\ count_code 61 (query exchange sym db) = (if truthy db then 3 else 2)%nat
  /\ count_code 35 (query exchange sym db) = 0%nat
  /\ count_code 63 (query exchange sym db) = 0%nat
  /\ count_code 32 (query exchange sym db) = 0%nat.
Proof.
  unfold query.
  repeat split; rewrite !count_code_app, !count_code_urlencode by reflexivity;
    destruct db as [[|a d]|]; simpl truthy; cbv iota;
    rewrite ?count_code_app, ?count_code_urlencode by reflexivity; reflexivity.
Qed.

(** Values made of unreserved bytes are sent as they are. *)
Lemma encode_codes_unreserved cs :
  Forall (fun c => unreserved c = true) cs -> encode_codes cs = cs.
Proof.
  unfold encode_codes. induction 1 as [|c r Hc _ IH]; simpl; [reflexivity|].
  rewrite IH. unfold encode_byte. rewrite Hc.
  destruct (N.eqb_spec c 32) as [->|_]; [discriminate Hc|reflexivity].
Qed.

Lemma urlencode_unreserved s :
  Forall (fun c => unreserved c = true) (codes s) -> urlencode s = s.
Proof.
  intros H. apply codes_inj. rewrite codes_urlencode. now apply encode_codes_unreserved.
Qed.

(** X9.  When the exchange, the symbol and a non-empty [db] are made of
    letters, digits, [*], [-], [.] and [_], the URL requested holds them as
    they are. *)
Theorem request_url_verbatim (API_BASE exchange sym db : string) :
  Forall (fun c => unreserved c = true) (codes exchange) ->
  Forall (fun c => unreserved c = true) (codes sym) ->
  Forall (fun c => unreserved c = true) (codes db) ->
  db <> "" ->
  request_url API_BASE exchange sym (Some db)
  = API_BASE +:+ "/api/coin-stats/raw?exchange=" +:+ exchange +:+ "&symbol=" +:+ sym
    +:+ "&db=" +:+ db.
Proof.
  intros He Hs Hd Hne. unfold request_url, query.
  rewrite !urlencode_unreserved by assumption.
  destruct db; [congruence|]. reflexivity.
Qed.

Lemma request_url_verbatim_witness :
  request_url "" "binance" "ADAUSDT" (Some "coin-stats")
  = "/api/coin-stats/raw?exchange=binance&symbol=ADAUSDT&db=coin-stats".
Proof.
  apply (request_url_verbatim "" "binance" "ADAUSDT" "coin-stats");
    try (vm_compute; repeat constructor); discriminate.
Defined.

Lemma encode_byte_cases c :
  c < 256 ->
  (c = 32 /\ encode_byte c = [43])
  \/ (unreserved c = true /\ encode_byte c = [c])
  \/ (c <> 32 /\ unreserved c = false
      /\ encode_byte c = [37; hex_digit (c / 16); hex_digit (c mod 16)]).
Proof.
  intros Hc. unfold encode_byte. destruct (N.eqb_spec c 32) as [->|Hne]; [now left|].
  destruct (unreserved c); [right; left|right; right]; auto.
Qed.

Lemma unreserved_not c : unreserved c = true -> c <> 43 /\ c <> 37 /\ c <> 38.
Proof.
  unfold unreserved.
  repeat (rewrite orb_true_iff || rewrite andb_true_iff || rewrite N.leb_le || rewrite N.eqb_eq).
  lia.
Qed.

Lemma encode_byte_prefix c c' X X' :
  c < 256 -> c' < 256 ->
  encode_byte c ++ X = encode_byte c' ++ X' -> c = c' /\ X = X'.
Proof.
  intros Hc Hc'.
  destruct (encode_byte_cases c Hc) as [[-> ->]|[[Hu ->]|(Hne & Hu & ->)]];
    destruct (encode_byte_cases c' Hc') as [[-> ->]|[[Hu' ->]|(Hne' & Hu' & ->)]];
    simpl; intros H.
  - injection H as H. auto.
  - injection H as H0 H. apply unreserved_not in Hu'. lia.
  - injection H as H0 H. lia.
  - injection H as H0 H. apply unreserved_not in Hu. lia.
  - injection H as H0 H. auto.
  - injection H as H0 H. apply unreserved_not in Hu. lia.
  - injection H as H0 H. lia.
  - injection H as H0 H. apply unreserved_not in Hu'. lia.
  - injection H as H1 H2 HX.
    assert (c / 16 < 16) by (apply N.Div0.div_lt_upper_bound; lia).
    assert (c' / 16 < 16) by (apply N.Div0.div_lt_upper_bound; lia).
    assert (c mod 16 < 16) by (apply N.mod_lt; lia).
    assert (c' mod 16 < 16) by (apply N.mod_lt; lia).
    apply hex_digit_inj in H1; [|assumption..].
    apply hex_digit_inj in H2; [|assumption..].
    split; [|exact HX].
    rewrite (N.div_mod c 16), (N.div_mod c' 16) by lia. now rewrite H1, H2.
Qed.

Lemma encode_byte_head c : c < 256 -> exists x r, encode_byte c = x :: r /\ x <> 38.
Proof.
  intros Hc. destruct (encode_byte_cases c Hc) as [[-> ->]|[[Hu ->]|(Hne & Hu & ->)]].
  - exists 43, []. split; [reflexivity|lia].
  - exists c, []. split; [reflexivity|]. apply unreserved_not in Hu. lia.
  - eexists 37, _. split; [reflexivity|lia].
Qed.

Lemma encode_codes_split l l' t t' :
  Forall (fun c => c < 256) l -> Forall (fun c => c < 256) l' ->
  boundary t -> boundary t' ->
  encode_codes l ++ t = encode_codes l' ++ t' -> l = l' /\ t = t'.
Proof.
  intros Hl. revert l'. induction Hl as [|c r Hc _ IH]; intros l' Hl' Ht Ht'.
  - destruct Hl' as [|c' r' Hc' _]; [simpl; auto|].
    unfold encode_codes. simpl. destruct (encode_byte_head c' Hc') as (x & rr & -> & Hx).
    simpl. destruct Ht as [->|[q ->]]; [discriminate|]. intros H. injection H as H _. lia.
  - destruct Hl' as [|c' r' Hc' Hr'].
    + unfold encode_codes. simpl. destruct (encode_byte_head c Hc) as (x & rr & -> & Hx).
      simpl. destruct Ht' as [->|[q ->]]; [discriminate|]. intros H. injection H as H _. lia.
    + unfold encode_codes. simpl. rewrite <- !app_assoc. intros H.
      apply encode_byte_prefix in H as [-> H]; [|assumption..].
      destruct (IH r' Hr' Ht Ht' H) as [-> ->]. auto.
Qed.

(** The codes of what [query] appends for [db]. *)
Lemma db_tail db :
  exists t, boundary t
    /\ codes (match db with
              | Some d => if truthy db then "&db=" +:+ urlencode d else ""
              | None => ""
              end) = t
    /\ (forall db' t', codes (match db' with
                              | Some d => if truthy db' then "&db=" +:+ urlencode d else ""
                              | None => ""
                              end) = t' -> t = t' -> sent_db db = sent_db db').
Proof.
  assert (Hinj : forall d d', codes ("&db=" +:+ urlencode d) = codes ("&db=" +:+ urlencode d')
                              -> d = d').
  { intros d d' H. rewrite !codes_app, !codes_urlencode in H. apply app_inv_head in H.
    rewrite <- (app_nil_r (encode_codes (codes d))),
            <- (app_nil_r (encode_codes (codes d'))) in H.
    apply encode_codes_split in H as [H _]; try apply codes_lt; try (now left).
    now apply codes_inj. }
  eexists. split; [|split; [reflexivity|]].
  - destruct db as [[|a d]|]; simpl truthy; cbv iota; [now left| |now left].
    right. rewrite codes_app. eexists. reflexivity.
  - intros db' t' <-.
    destruct db as [[|a d]|], db' as [[|a' d']|]; simpl truthy; cbv iota; unfold sent_db;
      simpl truthy; cbv iota; try reflexivity;
      try (rewrite codes_app; discriminate).
    intros H. apply Hinj in H. now rewrite H.
Qed.

(** X10.  The URL determines its inputs: two requests under the same base
    with the same URL have the same exchange, the same symbol and the same
    [db] sent (an empty [db] counting as none). *)
Theorem request_url_injective (API_BASE exchange sym exchange' sym' : string)
        (db db' : option string) :
  request_url API_BASE exchange sym db = request_url API_BASE exchange' sym' db' ->
  exchange = exchange' /\ sym = sym' /\ sent_db db = sent_db db'.
Proof.
  unfold request_url, query. intros H. apply (f_equal codes) in H.
  rewrite !codes_app, !codes_urlencode in H.
  do 3 apply app_inv_head in H.
  destruct (db_tail db) as (t & Ht & Heq & Hsent).
  destruct (db_tail db') as (t' & Ht' & Heq' & _).
  rewrite Heq, Heq' in H.
  apply encode_codes_split in H as [He H]; try apply codes_lt;
    try (right; eexists; reflexivity).
  apply app_inv_head in H.
  apply encode_codes_split in H as [Hs H]; try apply codes_lt; try assumption.
  split; [now apply codes_inj|]. split; [now apply codes_inj|].
  now apply (Hsent db' t').
Qed.

Lemma request_url_injective_witness :
  "binance" = "binance" /\ "ADAUSDT" = "ADAUSDT" /\ sent_db None = sent_db (Some "").
Proof.
  apply (request_url_injective "" "binance" "ADAUSDT" "binance" "ADAUSDT" None (Some "")).
  reflexivity.
Defined.

End RequestFacts.

(** ** Day keys *)

Section CalendarFacts.
Local Open Scope Z_scope.

Lemma doe_mono a b ya mpa da yb mpb db :
  0 <= a <= b -> b <= 146096 ->
  ymd_of_doe a = (ya, mpa, da) -> ymd_of_doe b = (yb, mpb, db) ->
  ya < yb \/ (ya = yb /\ (mpa < mpb \/ (mpa = mpb /\ da <= db))).
Proof.
  unfold ymd_of_doe. intros Hab Hb Ha Hb'. injection Ha as <- <- <-. injection Hb' as <- <- <-.
  Z.to_euclidean_division_equations. lia.
Qed.

Lemma ymd_of_doe_bounds doe yoe mp d :
  0 <= doe <= 146096 -> ymd_of_doe doe = (yoe, mp, d) ->
  0 <= yoe <= 399 /\ 0 <= mp <= 11 /\ 1 <= d <= 31.
Proof.
  unfold ymd_of_doe. intros H E. injection E as <- <- <-.
  Z.to_euclidean_division_equations. lia.
Qed.

Lemma civil_as_doe days :
  let era := (days + 719468) / 146097 in
  let doe := days + 719468 - era * 146097 in
  0 <= doe <= 146096 /\
  civil_from_days days =
    let '(yoe, mp, d) := ymd_of_doe doe in
    let m := if mp <? 10 then mp + 3 else mp - 9 in
    (yoe + era * 400 + (if m <=? 2 then 1 else 0), m, d).
Proof.
  intros era doe. split; [unfold doe, era; Z.to_euclidean_division_equations; lia|reflexivity].
Qed.

Lemma civil_mono days1 days2 :
  days1 <= days2 -> lex_le (civil_from_days days1) (civil_from_days days2).
Proof.
  intros H.
  destruct (civil_as_doe days1) as [Hd1 ->]. destruct (civil_as_doe days2) as [Hd2 ->].
  set (era1 := (days1 + 719468) / 146097) in *.
  set (era2 := (days2 + 719468) / 146097) in *.
  set (doe1 := days1 + 719468 - era1 * 146097) in *.
  set (doe2 := days2 + 719468 - era2 * 146097) in *.
  assert (Hera : era1 < era2 \/ (era1 = era2 /\ doe1 <= doe2)).
  { unfold doe1, doe2, era1, era2. Z.to_euclidean_division_equations. lia. }
  destruct (ymd_of_doe doe1) as [[yoe1 mp1] d1] eqn:E1.
  destruct (ymd_of_doe doe2) as [[yoe2 mp2] d2] eqn:E2.
  pose proof (ymd_of_doe_bounds _ _ _ _ Hd1 E1) as B1.
  pose proof (ymd_of_doe_bounds _ _ _ _ Hd2 E2) as B2.
  assert (Hdoe : era1 = era2 -> yoe1 < yoe2 \/ (yoe1 = yoe2 /\ (mp1 < mp2 \/ (mp1 = mp2 /\ d1 <= d2)))).
  { intros He. apply (doe_mono doe1 doe2); try assumption; lia. }
  clearbody era1 era2 doe1 doe2. clear E1 E2.
  unfold lex_le.
  destruct (Z.ltb_spec mp1 10), (Z.ltb_spec mp2 10);
    repeat match goal with |- context [?a <=? 2] => destruct (Z.leb_spec a 2) end; lia.
Qed.

Lemma doe_inj a b y mp d :
  0 <= a -> a < b -> b <= 146096 ->
  ymd_of_doe a = (y, mp, d) -> ymd_of_doe b = (y, mp, d) -> False.
Proof.
  unfold ymd_of_doe. intros Ha Hab Hb H1 H2.
  injection H1 as <- <- <-. injection H2 as H2 H3 H4.
  Z.to_euclidean_division_equations. lia.
Qed.

Lemma civil_inj days1 days2 :
  civil_from_days days1 = civil_from_days days2 -> days1 = days2.
Proof.
  destruct (civil_as_doe days1) as [Hd1 ->]. destruct (civil_as_doe days2) as [Hd2 ->].
  set (era1 := (days1 + 719468) / 146097) in *.
  set (era2 := (days2 + 719468) / 146097) in *.
  set (doe1 := days1 + 719468 - era1 * 146097) in *.
  set (doe2 := days2 + 719468 - era2 * 146097) in *.
  destruct (ymd_of_doe doe1) as [[yoe1 mp1] d1] eqn:E1.
  destruct (ymd_of_doe doe2) as [[yoe2 mp2] d2] eqn:E2.
  pose proof (ymd_of_doe_bounds _ _ _ _ Hd1 E1) as B1.
  pose proof (ymd_of_doe_bounds _ _ _ _ Hd2 E2) as B2.
  intros H. injection H as Hy Hm Hd.
  assert (mp1 = mp2) by (destruct (Z.ltb_spec mp1 10), (Z.ltb_spec mp2 10); lia).
  subst mp2 d2.
  assert (era1 = era2 /\ yoe1 = yoe2) as [He Hyoe] by lia.
  subst yoe2.
  assert (doe1 = doe2).
  { destruct (Z.lt_trichotomy doe1 doe2) as [L|[L|L]]; [exfalso|exact L|exfalso].
    - apply (doe_inj doe1 doe2 yoe1 mp1 d1); tauto || lia.
    - apply (doe_inj doe2 doe1 yoe1 mp1 d1); tauto || lia. }
  unfold doe1, doe2 in *. lia.
Qed.

Lemma append_cons (x : ascii) (a b : string) : String x a +:+ b = String x (a +:+ b).
Proof. reflexivity. Qed.

Lemma append_nil (b : string) : "" +:+ b = b.
Proof. reflexivity. Qed.

Lemma append_nil_r (a : string) : a +:+ "" = a.
Proof. induction a as [|x a IH]; [reflexivity|]. rewrite append_cons. f_equal. exact IH. Qed.

Lemma app_assoc_s (a b c : string) : (a +:+ b) +:+ c = a +:+ (b +:+ c).
Proof.
  induction a as [|x a IH]; [reflexivity|].
  rewrite !append_cons. f_equal. exact IH.
Qed.

Lemma length_app_s (a b : string) :
  String.length (a +:+ b) = (String.length a + String.length b)%nat.
Proof.
  induction a as [|x a IH]; [reflexivity|].
  rewrite append_cons. cbn [String.length]. rewrite IH. reflexivity.
Qed.

Lemma substring_all (a : string) : substring 0 (String.length a) a = a.
Proof. induction a as [|x a IH]; cbn [String.length substring]; [reflexivity|]. f_equal. exact IH. Qed.

Lemma substring_prefix (a b : string) : substring 0 (String.length a) (a +:+ b) = a.
Proof.
  induction a as [|x a IH].
  - rewrite append_nil. now destruct b.
  - rewrite append_cons. cbn [String.length substring]. f_equal. exact IH.
Qed.

Lemma substring_skip (a b : string) (n m : nat) :
  substring (String.length a + n) m (a +:+ b) = substring n m b.
Proof.
  induction a as [|x a IH]; [reflexivity|].
  rewrite append_cons. cbn [String.length Nat.add substring]. exact IH.
Qed.

Lemma length_pad (n : nat) (z : Z) : String.length (pad n z) = n.
Proof.
  revert z. induction n as [|n IH]; intros z; simpl; [reflexivity|].
  rewrite length_app_s, IH. simpl. lia.
Qed.

(** The digit that [pad] writes for [0 <= k <= 9]. *)
Lemma digit_code (k : Z) :
  0 <= k <= 9 -> N_of_ascii (ascii_of_N (48 + Z.to_N k)) = (48 + Z.to_N k)%N.
Proof. intros H. apply N_ascii_embedding. lia. Qed.

Lemma compare_pad (n : nat) : forall (a b : Z) (s t : string),
  0 <= a < 10 ^ Z.of_nat n -> 0 <= b < 10 ^ Z.of_nat n ->
  String.compare (pad n a +:+ s) (pad n b +:+ t)
  = match a ?= b with
    | Eq => String.compare s t
    | c => c
    end.
Proof.
  induction n as [|n IH]; intros a b s t Ha Hb.
  - simpl in *. assert (a = 0) by lia. assert (b = 0) by lia. subst. reflexivity.
  - rewrite Nat2Z.inj_succ, Z.pow_succ_r in Ha, Hb by lia.
    change (pad (S n) a) with (pad n (a / 10) +:+ String (ascii_of_N (48 + Z.to_N (a mod 10))) "").
    change (pad (S n) b) with (pad n (b / 10) +:+ String (ascii_of_N (48 + Z.to_N (b mod 10))) "").
    rewrite !app_assoc_s. rewrite IH by (Z.to_euclidean_division_equations; lia).
    rewrite !append_cons, !append_nil. cbn [String.compare].
    rewrite !ascii_compare_N, !digit_code by (Z.to_euclidean_division_equations; lia).
    assert (0 <= a mod 10 < 10 /\ 0 <= b mod 10 < 10 /\ a = 10 * (a / 10) + a mod 10
            /\ b = 10 * (b / 10) + b mod 10) as (Ha' & Hb' & Ea & Eb)
      by (Z.to_euclidean_division_equations; lia).
    destruct (Z.compare_spec (a / 10) (b / 10)),
      (N.compare_spec (48 + Z.to_N (a mod 10)) (48 + Z.to_N (b mod 10))),
      (Z.compare_spec a b); try reflexivity; exfalso; lia.
Qed.

Section KeyTheorems.
Context (E : engine).

Lemma civil_bounds days y m d :
  civil_from_days days = (y, m, d) -> 1 <= m <= 12 /\ 1 <= d <= 31.
Proof.
  destruct (civil_as_doe days) as [Hd ->].
  destruct (ymd_of_doe _) as [[yoe mp] d'] eqn:Ey.
  pose proof (ymd_of_doe_bounds _ _ _ _ Hd Ey) as B.
  intros H. injection H as _ <- <-.
  destruct (Z.ltb_spec mp 10); lia.
Qed.

Lemma civil_year_range tv y m d :
  -62167219200000 <= tv <= 253402300799999 ->
  civil_from_days (tv / 86400000) = (y, m, d) -> 0 <= y <= 9999.
Proof.
  intros Htv Hc.
  assert (H1 : -719528 <= tv / 86400000 <= 2932896) by (Z.to_euclidean_division_equations; lia).
  pose proof (civil_mono (-719528) (tv / 86400000) (proj1 H1)) as L.
  pose proof (civil_mono (tv / 86400000) 2932896 (proj2 H1)) as U.
  rewrite Hc in L, U.
  change (civil_from_days (-719528)) with (0, 1, 1) in L.
  change (civil_from_days 2932896) with (9999, 12, 31) in U.
  unfold lex_le in L, U. lia.
Qed.

Lemma civil_year_outside tv y m d :
  tv < -62167219200000 \/ 253402300799999 < tv ->
  civil_from_days (tv / 86400000) = (y, m, d) -> y < 0 \/ 9999 < y.
Proof.
  intros [Htv|Htv] Hc.
  - assert (H1 : tv / 86400000 <= -719529) by (Z.to_euclidean_division_equations; lia).
    pose proof (civil_mono _ _ H1) as U. rewrite Hc in U.
    change (civil_from_days (-719529)) with (-1, 12, 31) in U.
    unfold lex_le in U. lia.
  - assert (H1 : 2932897 <= tv / 86400000) by (Z.to_euclidean_division_equations; lia).
    pose proof (civil_mono _ _ H1) as L. rewrite Hc in L.
    change (civil_from_days 2932897) with (10000, 1, 1) in L.
    unfold lex_le in L. lia.
Qed.

Lemma day_key_unfold tv y m d :
  civil_from_days (tv / 86400000) = (y, m, d) ->
  exists rest, day_key E tv
    = Ok (slice0 10 (year_string y +:+ "-" +:+ pad 2 m +:+ "-" +:+ pad 2 d +:+ rest)).
Proof.
  intros Hc. unfold day_key, toISOString. rewrite Hc. eexists. reflexivity.
Qed.

Lemma day_key_in_range tv y m d :
  0 <= y <= 9999 ->
  civil_from_days (tv / 86400000) = (y, m, d) ->
  day_key E tv = Ok (pad 4 y +:+ "-" +:+ pad 2 m +:+ "-" +:+ pad 2 d).
Proof.
  intros Hy Hc. destruct (day_key_unfold _ _ _ _ Hc) as [rest ->].
  unfold year_string.
  destruct (Z.leb_spec 0 y); [|lia]. destruct (Z.leb_spec y 9999); [|lia].
  cbn [andb]. f_equal. unfold slice0.
  set (k := pad 4 y +:+ "-" +:+ pad 2 m +:+ "-" +:+ pad 2 d).
  replace (pad 4 y +:+ "-" +:+ pad 2 m +:+ "-" +:+ pad 2 d +:+ rest) with (k +:+ rest)
    by (unfold k; now rewrite !app_assoc_s).
  replace 10%nat with (String.length k); [apply substring_prefix|].
  unfold k. rewrite !length_app_s, !length_pad. reflexivity.
Qed.

Lemma day_key_out_of_range tv y m d :
  y < 0 \/ 9999 < y ->
  civil_from_days (tv / 86400000) = (y, m, d) ->
  day_key E tv = Ok ((if y <? 0 then "-" else "+") +:+ pad 6 (Z.abs y) +:+ "-" +:+ pad 2 m).
Proof.
  intros Hy Hc. destruct (day_key_unfold _ _ _ _ Hc) as [rest ->].
  unfold year_string.
  replace ((0 <=? y) && (y <=? 9999)) with false
    by (destruct (Z.leb_spec 0 y), (Z.leb_spec y 9999); cbn; lia).
  f_equal. unfold slice0.
  set (sg := if y <? 0 then "-" else "+").
  set (k := sg +:+ pad 6 (Z.abs y) +:+ "-" +:+ pad 2 m).
  replace ((sg +:+ pad 6 (Z.abs y)) +:+ "-" +:+ pad 2 m +:+ "-" +:+ pad 2 d +:+ rest)
    with (k +:+ "-" +:+ pad 2 d +:+ rest)
    by (unfold k; now rewrite !app_assoc_s).
  replace 10%nat with (String.length k); [apply substring_prefix|].
  unfold k. rewrite !length_app_s, !length_pad. unfold sg. now destruct (y <? 0).
Qed.

Lemma pad_head (n : nat) (z : Z) :
  exists k r, (k <= 9)%N /\ pad (S n) z = String (ascii_of_N (48 + k)) r.
Proof.
  revert z. induction n as [|n IH]; intros z.
  - exists (Z.to_N (z mod 10)), "". split; [Z.to_euclidean_division_equations; lia|reflexivity].
  - destruct (IH (z / 10)) as (k & r & Hk & Hp).
    change (pad (S (S n)) z)
      with (pad (S n) (z / 10) +:+ String (ascii_of_N (48 + Z.to_N (z mod 10))) "").
    rewrite Hp, append_cons. eauto.
Qed.

(** ** Day keys of the years 0000 to 9999 *)

(** X11.  Within the years 0000 to 9999 the key of a bucket is the ten
    characters YYYY-MM-DD of the UTC calendar date of the instant, and the
    axis label [date.slice(5)] is MM-DD. *)
Theorem day_key_calendar_date (tv : Z) :
  -62167219200000 <= tv <= 253402300799999 ->
  exists y m d,
    civil_from_days (tv / 86400000) = (y, m, d) /\
    0 <= y <= 9999 /\ 1 <= m <= 12 /\ 1 <= d <= 31 /\
    day_key E tv = Ok (pad 4 y +:+ "-" +:+ pad 2 m +:+ "-" +:+ pad 2 d) /\
    slice_from 5 (pad 4 y +:+ "-" +:+ pad 2 m +:+ "-" +:+ pad 2 d)
      = pad 2 m +:+ "-" +:+ pad 2 d.
Proof.
  intros Htv. destruct (civil_from_days (tv / 86400000)) as [[y m] d] eqn:Hc.
  exists y, m, d. pose proof (civil_year_range _ _ _ _ Htv Hc) as Hy.
  pose proof (civil_bounds _ _ _ _ Hc) as [Hm Hd].
  split; [reflexivity|]. repeat (split; [lia|]).
  split; [now apply day_key_in_range|reflexivity].
Qed.

Lemma key_compare y1 m1 d1 y2 m2 d2 :
  0 <= y1 <= 9999 -> 1 <= m1 <= 12 -> 1 <= d1 <= 31 ->
  0 <= y2 <= 9999 -> 1 <= m2 <= 12 -> 1 <= d2 <= 31 ->
  String.compare (pad 4 y1 +:+ "-" +:+ pad 2 m1 +:+ "-" +:+ pad 2 d1)
                 (pad 4 y2 +:+ "-" +:+ pad 2 m2 +:+ "-" +:+ pad 2 d2)
  = match y1 ?= y2 with
    | Eq => match m1 ?= m2 with
            | Eq => d1 ?= d2
            | c => c
            end
    | c => c
    end.
Proof.
  intros. rewrite compare_pad by (change (10 ^ Z.of_nat 4) with 10000; lia).
  destruct (y1 ?= y2); try reflexivity.
  rewrite ?append_cons, ?append_nil. cbn [String.compare]. change (Ascii.compare "-" "-") with Eq.
  rewrite compare_pad by (change (10 ^ Z.of_nat 2) with 100; lia).
  destruct (m1 ?= m2); try reflexivity.
  rewrite ?append_cons, ?append_nil. cbn [String.compare]. change (Ascii.compare "-" "-") with Eq.
  rewrite <- (append_nil_r (pad 2 d1)) at 1. 
  rewrite <- (append_nil_r (pad 2 d2)) at 1.
  rewrite compare_pad by (change (10 ^ Z.of_nat 2) with 100; lia).
  now destruct (d1 ?= d2).
Qed.
End KeyTheorems.

Section KeyOrder.
Context (E : engine).

Lemma day_key_of_civil tv k :
  -62167219200000 <= tv <= 253402300799999 ->
  day_key E tv = Ok k ->
  exists y m d, civil_from_days (tv / 86400000) = (y, m, d) /\
    0 <= y <= 9999 /\ 1 <= m <= 12 /\ 1 <= d <= 31 /\
    k = pad 4 y +:+ "-" +:+ pad 2 m +:+ "-" +:+ pad 2 d.
Proof.
  intros Htv Hk. destruct (civil_from_days (tv / 86400000)) as [[y m] d] eqn:Hc.
  pose proof (civil_year_range _ _ _ _ Htv Hc) as Hy.
  pose proof (civil_bounds _ _ _ _ Hc) as [Hm Hd].
  rewrite (day_key_in_range E _ _ _ _ Hy Hc) in Hk.
  exists y, m, d. repeat (split; [reflexivity || lia|]). congruence.
Qed.

(** X12.  Within the years 0000 to 9999 the string order of two day keys is
    the order of their UTC days, and two instants share a key exactly when
    they fall on the same UTC day: sorting the keys sorts the days. *)
Theorem day_keys_sort_chronologically (tv1 tv2 : Z) (k1 k2 : string) :
  -62167219200000 <= tv1 <= 253402300799999 ->
  -62167219200000 <= tv2 <= 253402300799999 ->
  day_key E tv1 = Ok k1 -> day_key E tv2 = Ok k2 ->
  (tv1 / 86400000 <= tv2 / 86400000 <-> str_le k1 k2) /\
  (tv1 / 86400000 = tv2 / 86400000 <-> k1 = k2).
Proof.
  intros H1 H2 K1 K2.
  destruct (day_key_of_civil _ _ H1 K1) as (y1 & m1 & d1 & C1 & Hy1 & Hm1 & Hd1 & ->).
  destruct (day_key_of_civil _ _ H2 K2) as (y2 & m2 & d2 & C2 & Hy2 & Hm2 & Hd2 & ->).
  pose proof (key_compare y1 m1 d1 y2 m2 d2 Hy1 Hm1 Hd1 Hy2 Hm2 Hd2) as Hcmp.
  assert (Hsame : tv1 / 86400000 = tv2 / 86400000 <-> (y1 = y2 /\ m1 = m2 /\ d1 = d2)).
  { split.
    - intros Heq. rewrite Heq, C2 in C1. injection C1 as -> -> ->. auto.
    - intros (-> & -> & ->). apply civil_inj. congruence. }
  split.
  - unfold str_le, String.leb. rewrite Hcmp. split.
    + intros Hle. pose proof (civil_mono _ _ Hle) as L. rewrite C1, C2 in L. unfold lex_le in L.
      destruct (Z.compare_spec y1 y2); [|reflexivity|lia].
      destruct (Z.compare_spec m1 m2); [|reflexivity|lia].
      destruct (Z.compare_spec d1 d2); [reflexivity|reflexivity|lia].
    + intros Hle. destruct (Z.le_gt_cases (tv1 / 86400000) (tv2 / 86400000)) as [|Hgt]; [assumption|].
      exfalso.
      assert (Hle' : tv2 / 86400000 <= tv1 / 86400000) by lia.
      pose proof (civil_mono _ _ Hle') as L. rewrite C1, C2 in L. unfold lex_le in L.
      assert (Hne : ~ (y1 = y2 /\ m1 = m2 /\ d1 = d2)) by (rewrite <- Hsame; lia).
      destruct (Z.compare_spec y1 y2); [|lia|discriminate].
      destruct (Z.compare_spec m1 m2); [|lia|discriminate].
      destruct (Z.compare_spec d1 d2); [lia|lia|discriminate].
  - rewrite Hsame. split.
    + intros (-> & -> & ->). reflexivity.
    + intros Heq. rewrite Heq in Hcmp.
      assert (Hrefl : forall s, String.compare s s = Eq).
      { intros s. pose proof (String.compare_antisym s s) as A.
        destruct (String.compare s s); try reflexivity; discriminate. }
      rewrite Hrefl in Hcmp.
      destruct (Z.compare_spec y1 y2); try discriminate.
      destruct (Z.compare_spec m1 m2); try discriminate.
      destruct (Z.compare_spec d1 d2); try discriminate. auto.
Qed.

(** X13.  An instant outside the years 0000 to 9999 gets a key made of a
    sign, six year digits and the month, with no day in it; such a key sorts
    before every key of the years 0000 to 9999. *)
Theorem day_key_expanded_year (tv tv' : Z) (k' : string) :
  Z.abs tv <= 8640000000000000 ->
  tv < -62167219200000 \/ 253402300799999 < tv ->
  -62167219200000 <= tv' <= 253402300799999 ->
  day_key E tv' = Ok k' ->
  exists y m d k,
    civil_from_days (tv / 86400000) = (y, m, d) /\
    k = (if y <? 0 then "-" else "+") +:+ pad 6 (Z.abs y) +:+ "-" +:+ pad 2 m /\
    day_key E tv = Ok k /\ str_lt k k'.
Proof.
  intros _ Htv Htv' K'.
  destruct (day_key_of_civil _ _ Htv' K') as (y' & m' & d' & _ & _ & _ & _ & ->).
  destruct (civil_from_days (tv / 86400000)) as [[y m] d] eqn:Hc.
  pose proof (civil_year_outside _ _ _ _ Htv Hc) as Hy.
  exists y, m, d. eexists. split; [reflexivity|]. split; [reflexivity|].
  split; [exact (day_key_out_of_range E tv y m d Hy Hc)|].
  destruct (pad_head 3 y') as (c & r & Hc9 & ->).
  unfold str_lt, String.ltb.
  destruct (y <? 0); rewrite !append_cons; cbn [String.compare];
    rewrite ascii_compare_N, N_ascii_embedding by lia;
    match goal with |- context [N.compare ?a ?b] => destruct (N.compare_spec a b) as [L|L|L] end;
    try reflexivity; exfalso; cbn in L; lia.
Qed.


End KeyOrder.

Lemma day_keys_sort_chronologically_witness :
  (-62167219200000 <= 1704153599999 <= 253402300799999) /\
  (-62167219200000 <= 1704153600000 <= 253402300799999) /\
  day_key Sample.engine 1704153599999 = Ok "2024-01-01" /\
  day_key Sample.engine 1704153600000 = Ok "2024-01-02" /\
  (1704153599999 / 86400000 <= 1704153600000 / 86400000 <-> str_le "2024-01-01" "2024-01-02") /\
  (1704153599999 / 86400000 = 1704153600000 / 86400000 <-> "2024-01-01" = "2024-01-02").
Proof.
  split; [lia|]. split; [lia|]. split; [reflexivity|]. split; [reflexivity|].
  apply (day_keys_sort_chronologically Sample.engine 1704153599999 1704153600000); try lia; reflexivity.
Defined.

Lemma day_key_expanded_year_witness :
  exists y m d k,
    civil_from_days (253402300800000 / 86400000) = (y, m, d) /\
    k = (if y <? 0 then "-" else "+") +:+ pad 6 (Z.abs y) +:+ "-" +:+ pad 2 m /\
    day_key Sample.engine 253402300800000 = Ok k /\ str_lt k "1970-01-01".
Proof.
  apply (day_key_expanded_year Sample.engine 253402300800000 0 "1970-01-01"); try lia; reflexivity.
Defined.

Lemma day_key_calendar_date_witness :
  exists y m d,
    civil_from_days (1704153600000 / 86400000) = (y, m, d) /\
    0 <= y <= 9999 /\ 1 <= m <= 12 /\ 1 <= d <= 31 /\
    day_key Sample.engine 1704153600000 = Ok (pad 4 y +:+ "-" +:+ pad 2 m +:+ "-" +:+ pad 2 d) /\
    slice_from 5 (pad 4 y +:+ "-" +:+ pad 2 m +:+ "-" +:+ pad 2 d)
      = pad 2 m +:+ "-" +:+ pad 2 d.
Proof. apply (day_key_calendar_date Sample.engine 1704153600000). lia. Defined.

End CalendarFacts.

(** ** The key of the symbols among the dependencies of the effect *)

Lemma join_cons sep s t rest :
  join sep (s :: t :: rest) = s +:+ sep +:+ join sep (t :: rest).
Proof. reflexivity. Qed.

Lemma comma_split s1 s2 r1 r2 :
  comma_free s1 = true -> comma_free s2 = true ->
  s1 +:+ "," +:+ r1 = s2 +:+ "," +:+ r2 -> s1 = s2 /\ r1 = r2.
Proof.
  revert s2. induction s1 as [|a s1 IH]; intros [|b s2] H1 H2 H.
  - injection H as H. auto.
  - injection H as Hc _. subst b. simpl in H2. discriminate.
  - injection H as Hc _. subst a. simpl in H1. discriminate.
  - injection H as Hab H. subst b.
    simpl in H1, H2. apply andb_true_iff in H1 as [_ H1]. apply andb_true_iff in H2 as [_ H2].
    destruct (IH s2 H1 H2 H) as [-> ->]. auto.
Qed.

Lemma comma_inside s1 s2 r :
  comma_free s1 = true -> s1 = s2 +:+ "," +:+ r -> False.
Proof.
  revert s2. induction s1 as [|a s1 IH]; intros [|b s2] H1 H.
  - discriminate.
  - discriminate.
  - injection H as Hc _. subst a. simpl in H1. discriminate.
  - injection H as _ H. simpl in H1. apply andb_true_iff in H1 as [_ H1]. eauto.
Qed.

Lemma symbol_like_spec s : symbol_like s = true -> comma_free s = true /\ s <> "".
Proof.
  unfold symbol_like. intros H. apply andb_true_iff in H as [H1 H2]. split; [exact H1|].
  intros ->. discriminate.
Qed.

(** X14.  The key of the symbols among the dependencies of the effect,
    [symbols.join(",")], tells two lists of symbols apart when no symbol is
    empty or holds a comma. *)
Theorem symbols_key_injective (l1 l2 : list string) :
  Forall (fun s => symbol_like s = true) l1 ->
  Forall (fun s => symbol_like s = true) l2 ->
  join "," l1 = join "," l2 -> l1 = l2.
Proof.
  intros H1. revert l2. induction H1 as [|s1 r1 Hs1 Hr1 IH]; intros l2 H2 H.
  - destruct H2 as [|s2 r2 Hs2 _]; [reflexivity|].
    apply symbol_like_spec in Hs2 as [_ Hne]. exfalso. apply Hne.
    destruct r2; simpl in H; [congruence|]. destruct s2; [reflexivity|discriminate].
  - apply symbol_like_spec in Hs1 as [Hc1 Hne1].
    destruct H2 as [|s2 r2 Hs2 Hr2].
    + exfalso. apply Hne1. destruct r1; simpl in H; [congruence|].
      destruct s1; [reflexivity|discriminate].
    + apply symbol_like_spec in Hs2 as [Hc2 Hne2].
      destruct r1 as [|t1 r1], r2 as [|t2 r2].
      * simpl in H. now subst.
      * rewrite join_cons in H. simpl in H. exfalso. exact (comma_inside _ _ _ Hc1 H).
      * rewrite join_cons in H. simpl in H. exfalso. symmetry in H. exact (comma_inside _ _ _ Hc2 H).
      * rewrite !join_cons in H. apply comma_split in H as [-> H]; [|assumption..].
        f_equal. now apply IH.
Qed.

Lemma symbols_key_injective_witness : ALL_SYMBOLS = ALL_SYMBOLS.
Proof.
  apply (symbols_key_injective ALL_SYMBOLS ALL_SYMBOLS); [repeat constructor..|reflexivity].
Defined.

(** X15.  A symbol that holds a comma is not told apart: the key of a list
    that starts with the one symbol [a,b] is the key of the list that starts
    with the two symbols [a] and [b]. *)
Theorem symbols_key_merges (a b : string) (l : list string) :
  join "," ((a +:+ "," +:+ b) :: l) = join "," (a :: b :: l).
Proof.
  rewrite join_cons. destruct l as [|c l]; [reflexivity|].
  rewrite !join_cons, !app_assoc_s. reflexivity.
Qed.

(** ** The metrics of the chart *)

Section FloatOrder.
Local Open Scope Z_scope.

Lemma SFcompare_antisym a b c :
  SFcompare a b = Some c -> SFcompare b a = Some (CompOpp c).
Proof.
  destruct a as [[|]|[|]| |[|] m1 e1], b as [[|]|[|]| |[|] m2 e2]; simpl;
    try discriminate; try (intros [= <-]; reflexivity).
  - intros [= <-]. f_equal. rewrite (Z.compare_antisym e1 e2).
    destruct (e1 ?= e2); simpl; try reflexivity.
    change (Pos.compare_cont Eq m2 m1) with (Pos.compare m2 m1).
    change (Pos.compare_cont Eq m1 m2) with (Pos.compare m1 m2).
    rewrite (Pos.compare_antisym m1 m2). now destruct (m1 ?= m2)%positive.
  - intros [= <-]. f_equal. rewrite (Z.compare_antisym e1 e2).
    destruct (e1 ?= e2); simpl; try reflexivity.
    change (Pos.compare_cont Eq m2 m1) with (Pos.compare m2 m1).
    change (Pos.compare_cont Eq m1 m2) with (Pos.compare m1 m2).
    rewrite (Pos.compare_antisym m1 m2). now destruct (m1 ?= m2)%positive.
Qed.

Lemma SFcompare_total a b :
  a <> S754_nan -> b <> S754_nan -> exists c, SFcompare a b = Some c.
Proof.
  destruct a as [[|]|[|]| |[|] m1 e1], b as [[|]|[|]| |[|] m2 e2]; simpl;
    intros Ha Hb; try congruence; eauto.
Qed.

Lemma SFcompare_refl a : a <> S754_nan -> SFcompare a a = Some Eq.
Proof.
  destruct a as [[|]|[|]| |[|] m e]; simpl; intros Ha; try congruence;
    rewrite Z.compare_refl; change (Pos.compare_cont Eq m m) with (Pos.compare m m);
    now rewrite Pos.compare_refl.
Qed.

Ltac order_cases :=
  repeat match goal with
  | |- context [Z.compare ?x ?y] => destruct (Z.compare_spec x y)
  | |- context [Pos.compare ?x ?y] => destruct (Pos.compare_spec x y)
  end.

Lemma SFleb_trans a b c :
  SFleb a b = true -> SFleb b c = true -> SFleb a c = true.
Proof.
  unfold SFleb.
  destruct a as [[|]|[|]| |[|] m1 e1], b as [[|]|[|]| |[|] m2 e2],
           c as [[|]|[|]| |[|] m3 e3]; simpl; try easy;
    change (Pos.compare_cont Eq) with Pos.compare;
    order_cases; simpl; try easy; try lia.
Qed.
End FloatOrder.

Section FloatFacts.

Lemma is_nan_spec x : is_nan x = false <-> Prim2SF x <> S754_nan.
Proof.
  unfold is_nan. rewrite FloatAxioms.eqb_spec. unfold SFeqb. split.
  - intros H Hn. rewrite Hn in H. discriminate H.
  - intros H. now rewrite (SFcompare_refl _ H).
Qed.

Lemma leb_trans x y z : (x <=? y) = true -> (y <=? z) = true -> (x <=? z) = true.
Proof. rewrite !leb_spec. apply SFleb_trans. Qed.

Lemma leb_refl x : is_nan x = false -> (x <=? x) = true.
Proof.
  intros H. apply is_nan_spec in H. rewrite leb_spec. unfold SFleb.
  now rewrite (SFcompare_refl _ H).
Qed.

Lemma ltb_leb x y : (x <? y) = true -> (x <=? y) = true.
Proof.
  rewrite ltb_spec, leb_spec. unfold SFltb, SFleb.
  destruct (SFcompare (Prim2SF x) (Prim2SF y)) as [[| |]|]; easy.
Qed.

Lemma not_ltb_leb x y :
  is_nan x = false -> is_nan y = false -> (x <? y) = false -> (y <=? x) = true.
Proof.
  intros Hx Hy. apply is_nan_spec in Hx, Hy. rewrite ltb_spec, leb_spec. unfold SFltb, SFleb.
  destruct (SFcompare_total _ _ Hx Hy) as [c Hc]. rewrite Hc.
  rewrite (SFcompare_antisym _ _ _ Hc). now destruct c.
Qed.

Lemma is_neg_zero_eq x : is_neg_zero x = true -> x = neg_zero.
Proof.
  unfold is_neg_zero. intros H. rewrite <- (SF2Prim_Prim2SF x).
  destruct (Prim2SF x) as [[|]| | |]; try discriminate. reflexivity.
Qed.

Lemma is_pos_zero_eq x : is_pos_zero x = true -> x = PrimFloat.zero.
Proof.
  unfold is_pos_zero. intros H. rewrite <- (SF2Prim_Prim2SF x).
  destruct (Prim2SF x) as [[|]| | |]; try discriminate. reflexivity.
Qed.

Lemma infinity_leb x : (infinity <=? x) = true -> x = infinity.
Proof.
  rewrite leb_spec. intros H. rewrite <- (SF2Prim_Prim2SF x).
  change (Prim2SF infinity) with (S754_infinity false) in H.
  destruct (Prim2SF x) as [[|]|[|]| |[|] m e]; try discriminate H. reflexivity.
Qed.

Lemma leb_neg_infinity x : (x <=? neg_infinity) = true -> x = neg_infinity.
Proof.
  rewrite leb_spec. intros H. rewrite <- (SF2Prim_Prim2SF x).
  change (Prim2SF neg_infinity) with (S754_infinity true) in H.
  destruct (Prim2SF x) as [[|]|[|]| |[|] m e]; try discriminate H. reflexivity.
Qed.

Lemma min_from_spec vals : forall lowest,
  is_nan lowest = false -> Forall (fun x => is_nan x = false) vals ->
  is_nan (min_from lowest vals) = false
  /\ (min_from lowest vals <=? lowest) = true
  /\ Forall (fun x => (min_from lowest vals <=? x) = true) vals
  /\ (min_from lowest vals = lowest \/ min_from lowest vals ∈ vals).
Proof.
  induction vals as [|x rest IH]; intros lowest Hl Hv; simpl.
  - repeat split; [exact Hl|now apply leb_refl|constructor|now left].
  - apply Forall_cons in Hv as [Hx Hrest]. rewrite Hx.
    set (l1 := if is_neg_zero x && is_pos_zero lowest then neg_zero else lowest).
    set (l2 := if x <? l1 then x else l1).
    assert (H2 : is_nan l2 = false /\ (l2 <=? lowest) = true /\ (l2 <=? x) = true
                 /\ (l2 = lowest \/ l2 = x)).
    { unfold l2, l1. destruct (is_neg_zero x && is_pos_zero lowest) eqn:Hz.
      - apply andb_true_iff in Hz as [Hnz Hpz].
        apply is_neg_zero_eq in Hnz. apply is_pos_zero_eq in Hpz. subst x lowest.
        vm_compute. auto.
      - destruct (x <? lowest) eqn:Hlt.
        + repeat split; [exact Hx|now apply ltb_leb|now apply leb_refl|now right].
        + repeat split; [exact Hl|now apply leb_refl|now apply not_ltb_leb|now left]. }
    destruct H2 as (Hn2 & Hle2 & Hlex & Hmem2).
    destruct (IH l2 Hn2 Hrest) as (Hn & Hle & Hall & Hmem).
    repeat split.
    + exact Hn.
    + eapply leb_trans; eassumption.
    + constructor; [eapply leb_trans; eassumption|exact Hall].
    + destruct Hmem as [Hr|Hr]; [|right; now right].
      rewrite Hr. destruct Hmem2 as [->| ->]; [now left|right; now left].
Qed.

Lemma max_from_spec vals : forall highest,
  is_nan highest = false -> Forall (fun x => is_nan x = false) vals ->
  is_nan (max_from highest vals) = false
  /\ (highest <=? max_from highest vals) = true
  /\ Forall (fun x => (x <=? max_from highest vals) = true) vals
  /\ (max_from highest vals = highest \/ max_from highest vals ∈ vals).
Proof.
  induction vals as [|x rest IH]; intros highest Hl Hv; simpl.
  - repeat split; [exact Hl|now apply leb_refl|constructor|now left].
  - apply Forall_cons in Hv as [Hx Hrest]. rewrite Hx.
    set (l1 := if is_pos_zero x && is_neg_zero highest then PrimFloat.zero else highest).
    set (l2 := if l1 <? x then x else l1).
    assert (H2 : is_nan l2 = false /\ (highest <=? l2) = true /\ (x <=? l2) = true
                 /\ (l2 = highest \/ l2 = x)).
    { unfold l2, l1. destruct (is_pos_zero x && is_neg_zero highest) eqn:Hz.
      - apply andb_true_iff in Hz as [Hpz Hnz].
        apply is_neg_zero_eq in Hnz. apply is_pos_zero_eq in Hpz. subst x highest.
        vm_compute. auto.
      - destruct (highest <? x) eqn:Hlt.
        + repeat split; [exact Hx|now apply ltb_leb|now apply leb_refl|now right].
        + repeat split; [exact Hl|now apply leb_refl|now apply not_ltb_leb|now left]. }
    destruct H2 as (Hn2 & Hle2 & Hlex & Hmem2).
    destruct (IH l2 Hn2 Hrest) as (Hn & Hle & Hall & Hmem).
    repeat split.
    + exact Hn.
    + eapply leb_trans; eassumption.
    + constructor; [eapply leb_trans; eassumption|exact Hall].
    + destruct Hmem as [Hr|Hr]; [|right; now right].
      rewrite Hr. destruct Hmem2 as [->| ->]; [now left|right; now left].
Qed.

Lemma min_from_nan vals : forall lowest,
  Exists (fun x => is_nan x = true) vals -> min_from lowest vals = nan.
Proof.
  induction vals as [|x rest IH]; intros lowest H; [inversion H|]. simpl.
  destruct (is_nan x) eqn:Hx; [reflexivity|].
  apply Exists_cons in H as [H|H]; [congruence|]. now apply IH.
Qed.

Lemma max_from_nan vals : forall highest,
  Exists (fun x => is_nan x = true) vals -> max_from highest vals = nan.
Proof.
  induction vals as [|x rest IH]; intros highest H; [inversion H|]. simpl.
  destruct (is_nan x) eqn:Hx; [reflexivity|].
  apply Exists_cons in H as [H|H]; [congruence|]. now apply IH.
Qed.

Lemma Math_min_attained vals :
  vals <> [] -> Forall (fun x => is_nan x = false) vals ->
  Math_min vals ∈ vals /\ Forall (fun x => (Math_min vals <=? x) = true) vals.
Proof.
  intros Hne Hv. unfold Math_min.
  destruct (min_from_spec vals infinity eq_refl Hv) as (_ & _ & Hall & Hmem).
  split; [|exact Hall]. destruct Hmem as [Hr|Hr]; [|exact Hr].
  destruct vals as [|x rest]; [congruence|].
  apply Forall_cons in Hall as [Hx _]. rewrite Hr in Hx |- *.
  apply infinity_leb in Hx. rewrite Hx. now left.
Qed.

Lemma Math_max_attained vals :
  vals <> [] -> Forall (fun x => is_nan x = false) vals ->
  Math_max vals ∈ vals /\ Forall (fun x => (x <=? Math_max vals) = true) vals.
Proof.
  intros Hne Hv. unfold Math_max.
  destruct (max_from_spec vals neg_infinity eq_refl Hv) as (_ & _ & Hall & Hmem).
  split; [|exact Hall]. destruct Hmem as [Hr|Hr]; [|exact Hr].
  destruct vals as [|x rest]; [congruence|].
  apply Forall_cons in Hall as [Hx _]. rewrite Hr in Hx |- *.
  apply leb_neg_infinity in Hx. rewrite Hx. now left.
Qed.

End FloatFacts.

Lemma List_last_last {A} (l : list A) (d x : A) : last l = Some x -> List.last l d = x.
Proof. intros H. apply last_Some in H as [l' ->]. apply last_last. Qed.

Section MetricsFacts.
Context (max_args : nat) (msg_args : string).

Lemma derive_no_data (startingBalance : float) :
  derive max_args msg_args startingBalance []
  = Ok (Metrics false startingBalance startingBalance startingBalance
          (startingBalance - startingBalance) (0 <=? startingBalance - startingBalance)).
Proof. reflexivity. Qed.

Lemma derive_data (startingBalance : float) (points : list point) (q : point) :
  (length points <= max_args)%nat -> last points = Some q ->
  derive max_args msg_args startingBalance points
  = Ok (Metrics true (Math_min (map equity points)) (Math_max (map equity points))
          (equity q) (equity q - startingBalance) (0 <=? equity q - startingBalance)).
Proof.
  intros Hlen Hlast. unfold derive, spread. rewrite length_map.
  destruct points as [|p rest]; [discriminate|].
  destruct (Nat.ltb_spec max_args (length (p :: rest))) as [Hlt|_]; [lia|].
  unfold_bind. cbv beta iota. rewrite (List_last_last _ p q Hlast). reflexivity.
Qed.

End MetricsFacts.

Lemma running_last (m : gmap string float) (days : list string) (eq0 : float) :
  default eq0 (equity <$> last (running m eq0 days))
  = fold_left (fun e d => e + read_num m d) days eq0.
Proof.
  revert eq0. induction days as [|d days IH]; intros eq0; [reflexivity|].
  simpl running. rewrite last_cons. simpl fold_left. rewrite <- IH.
  destruct (last (running m (eq0 + read_num m d) days)); reflexivity.
Qed.

Lemma running_length (m : gmap string float) (days : list string) (eq0 : float) :
  length (running m eq0 days) = length days.
Proof. revert eq0. induction days as [|d days IH]; intros eq0; simpl; [reflexivity|]. now rewrite IH. Qed.

Lemma build_running (m : gmap string float) (sb : float) :
  build m sb = running m sb (merge_sort str_le (Object_keys m)).
Proof. unfold build. now rewrite build_fold. Qed.

(** X16.  With points, and no more of them than a call takes arguments,
    the metrics are derived without an exception; when no equity is NaN,
    [minEq] and [maxEq] are equities of the curve and bound every equity;
    when an equity is NaN, both are NaN. *)
Theorem derive_extremes (max_args : nat) (msg_args : string) (startingBalance : float)
        (points : list point) :
  points <> [] -> (length points <= max_args)%nat ->
  exists m,
    derive max_args msg_args startingBalance points = Ok m
    /\ hasData m = true
    /\ (Forall (fun p => is_nan (equity p) = false) points ->
        minEq m ∈ map equity points /\ maxEq m ∈ map equity points
        /\ Forall (fun p => (minEq m <=? equity p) = true
                            /\ (equity p <=? maxEq m) = true) points)
    /\ (Exists (fun p => is_nan (equity p) = true) points ->
        minEq m = nan /\ maxEq m = nan).
Proof.
  intros Hne Hlen.
  destruct (last points) as [q|] eqn:Hlast; [|now apply last_None in Hlast].
  eexists. split; [apply (derive_data max_args msg_args _ _ q Hlen Hlast)|].
  simpl. split; [reflexivity|]. split.
  - intros Hn.
    assert (Hv : Forall (fun x => is_nan x = false) (map equity points))
      by (apply Forall_map; exact Hn).
    assert (Hne' : map equity points <> []) by (destruct points; [congruence|discriminate]).
    destruct (Math_min_attained _ Hne' Hv) as [Hmin Hle].
    destruct (Math_max_attained _ Hne' Hv) as [Hmax Hge].
    split; [exact Hmin|]. split; [exact Hmax|].
    apply Forall_map in Hle, Hge. rewrite Forall_forall in *. intros p Hp. split; auto.
  - intros Hn. apply (Exists_fmap equity) in Hn || idtac.
    split; [apply min_from_nan|apply max_from_nan]; apply Exists_map; exact Hn.
Qed.

Lemma derive_extremes_witness :
  exists m,
    derive 1000 "Maximum call stack size exceeded" 1000
      [Point "2024-01-01" 1010; Point "2024-01-02" 995] = Ok m
    /\ hasData m = true
    /\ (Forall (fun p => is_nan (equity p) = false)
          [Point "2024-01-01" 1010; Point "2024-01-02" 995] ->
        minEq m ∈ map equity [Point "2024-01-01" 1010; Point "2024-01-02" 995]
        /\ maxEq m ∈ map equity [Point "2024-01-01" 1010; Point "2024-01-02" 995]
        /\ Forall (fun p => (minEq m <=? equity p) = true
                            /\ (equity p <=? maxEq m) = true)
             [Point "2024-01-01" 1010; Point "2024-01-02" 995])
    /\ (Exists (fun p => is_nan (equity p) = true)
          [Point "2024-01-01" 1010; Point "2024-01-02" 995] ->
        minEq m = nan /\ maxEq m = nan).
Proof.
  apply (derive_extremes 1000 "Maximum call stack size exceeded" 1000
           [Point "2024-01-01" 1010; Point "2024-01-02" 995]).
  - discriminate.
  - simpl. lia.
Defined.

Lemma Ok_inj {A} (a b : A) : Ok a = Ok b -> a = b.
Proof. intros H. exact (f_equal (fun r => match r with Ok x => x | Throw _ => a end) H). Qed.

Lemma derive_final (max_args : nat) (msg_args : string) (sb : float) (points : list point)
      (m : metrics) :
  derive max_args msg_args sb points = Ok m ->
  finalEq m = default sb (equity <$> last points)
  /\ netPnl m = finalEq m - sb
  /\ netPositive m = (0 <=? netPnl m)
  /\ hasData m = (0 <? length points)%nat.
Proof.
  destruct (last points) as [q|] eqn:Hlast.
  - destruct (Nat.le_gt_cases (length points) max_args) as [Hlen|Hlen].
    + rewrite (derive_data max_args msg_args sb points q Hlen Hlast).
      intros H. apply Ok_inj in H. subst m. simpl.
      repeat split. destruct points; [discriminate|reflexivity].
    + unfold derive, spread. rewrite length_map.
      destruct points as [|p rest]; [discriminate|].
      destruct (Nat.ltb_spec max_args (length (p :: rest))) as [_|Hle]; [|lia].
      discriminate.
  - apply last_None in Hlast. subst points. rewrite derive_no_data.
    intros H. apply Ok_inj in H. subst m. simpl. repeat split.
Qed.

(** X17.  The final equity of the curve built from the daily sums is the
    starting balance with the sums added in ascending order of their keys,
    the net PnL is its difference to the starting balance, the curve has
    one point per day, and it has no data exactly when there is no day. *)
Theorem final_equity_is_total (max_args : nat) (msg_args : string) (startingBalance : float)
        (dailyPL : gmap string float) (m : metrics) :
  derive max_args msg_args startingBalance (build dailyPL startingBalance) = Ok m ->
  finalEq m
  = fold_left (fun equity day => equity + read_num dailyPL day)
      (merge_sort str_le (Object_keys dailyPL)) startingBalance
  /\ netPnl m = finalEq m - startingBalance
  /\ length (build dailyPL startingBalance) = size dailyPL
  /\ (hasData m = false <-> dailyPL = ∅).
Proof.
  intros H. apply derive_final in H as (Hf & Hn & _ & Hd).
  assert (Hlen : length (build dailyPL startingBalance) = size dailyPL).
  { rewrite build_running, running_length, merge_sort_Permutation.
    unfold Object_keys. now rewrite length_fmap, length_map_to_list. }
  split; [rewrite Hf, build_running; apply running_last|].
  split; [exact Hn|]. split; [exact Hlen|].
  rewrite Hd, Hlen. rewrite <- map_size_empty_iff.
  destruct (size dailyPL); simpl; split; intros; try reflexivity; discriminate.
Qed.

Lemma final_equity_is_total_witness :
  finalEq (Metrics true 995 1010 995 (-5) false)
  = fold_left (fun equity day => equity + read_num {[ "2024-01-01" := 10; "2024-01-02" := -15 ]} day)
      (merge_sort str_le (Object_keys {[ "2024-01-01" := 10; "2024-01-02" := -15 ]})) 1000
  /\ netPnl (Metrics true 995 1010 995 (-5) false)
     = finalEq (Metrics true 995 1010 995 (-5) false) - 1000
  /\ length (build {[ "2024-01-01" := 10; "2024-01-02" := -15 ]} 1000)
     = size ({[ "2024-01-01" := 10; "2024-01-02" := -15 ]} : gmap string float)
  /\ (hasData (Metrics true 995 1010 995 (-5) false) = false
      <-> ({[ "2024-01-01" := 10; "2024-01-02" := -15 ]} : gmap string float) = ∅).
Proof.
  apply (final_equity_is_total 1000 "Maximum call stack size exceeded" 1000
           {[ "2024-01-01" := 10; "2024-01-02" := -15 ]}).
  vm_compute. reflexivity.
Defined.
